(** * markdown-crumbler: path resolution, index lookup, breadcrumbs, link fixing

    A shallow embedding of [crumbler.py] and the properties of its path
    and breadcrumb logic.

    - Python [str] values are Rocq strings over the ASCII range.  Where
      Python follows Unicode (the class [\w] of [re], the casing of
      [str.title]), a statement that depends on it asks for a string of
      ASCII characters by [Str.is_ascii].
    - [os.path] is [posixpath]; the working directory and the test
      [os.path.exists] come from a record [OS], so the file system is an
      arbitrary predicate on the paths the program asks about.  [ntpath]
      is there for [get_url_path] on a Windows host.
    - The regular expressions of the program are written out as the string
      functions they denote.
    - Python exceptions are carried by the type [result]; [x ← r; k] is
      the sequencing of two steps that may raise.
    - The parsed fragment of BeautifulSoup is the sequence of its elements;
      the attributes of an element are a finite map. *)

From Stdlib Require Import Ascii String List Bool Arith Lia.
From stdpp Require Import base option list strings gmap.

(** ** Exceptions *)

Inductive exn : Set := ValueError | TypeError | AttributeError | KeyError | IndexError.

Inductive result (A : Type) : Type :=
| Ok (a : A)
| Raise (e : exn).
Arguments Ok {A} a.
Arguments Raise {A} e.

#[global] Instance result_ret : MRet result := fun A a => Ok a.
#[global] Instance result_bind : MBind result := fun A B k r =>
  match r with
  | Ok a => k a
  | Raise e => Raise e
  end.

#[global] Instance result_fmap : FMap result := fun A B f r =>
  match r with
  | Ok a => Ok (f a)
  | Raise e => Raise e
  end.

(** ** Python [str] methods *)

Module Str.

Definition sep : ascii := "/"%char.
Definition backslash : ascii := "092"%char.
Definition newline : ascii := "010"%char.

Definition eqc (a b : ascii) : bool := Ascii.eqb a b.

(** [bool(s)]: a string is truthy when it is not empty. *)
Definition truthy (s : string) : bool :=
  match s with
  | EmptyString => false
  | String _ _ => true
  end.

(** [s.startswith(p)] *)
Fixpoint startswith (p s : string) : bool :=
  match p, s with
  | EmptyString, _ => true
  | String a p', String b s' => eqc a b && startswith p' s'
  | String _ _, EmptyString => false
  end.

(** [s.endswith(c)] for a one-character [c] *)
Fixpoint endswith_char (c : ascii) (s : string) : bool :=
  match s with
  | EmptyString => false
  | String a EmptyString => eqc a c
  | String _ s' => endswith_char c s'
  end.

(** [s[n:]] *)
Fixpoint drop (n : nat) (s : string) : string :=
  match n, s with
  | O, _ => s
  | S n', String _ s' => drop n' s'
  | S _, EmptyString => EmptyString
  end.

(** [s[:n]] *)
Fixpoint take (n : nat) (s : string) : string :=
  match n, s with
  | S n', String a s' => String a (take n' s')
  | _, _ => EmptyString
  end.

(** [s[:-3]] *)
Definition drop_last3 (s : string) : string :=
  take (String.length s - 3) s.

(** [s.replace(old, new)] for a non-empty [old]: the occurrences are taken
    from left to right and do not overlap; [skip] counts the characters of
    an occurrence still to be passed over. *)
Fixpoint replace_from (old new : string) (skip : nat) (s : string) : string :=
  match s with
  | EmptyString => EmptyString
  | String a s' =>
      match skip with
      | S k => replace_from old new k s'
      | O =>
          if startswith old s
          then new +:+ replace_from old new (String.length old - 1) s'
          else String a (replace_from old new O s')
      end
  end.

Definition replace (old new s : string) : string := replace_from old new 0 s.

(** [s.split(c)] for a one-character separator: never the empty list. *)
Fixpoint split (c : ascii) (s : string) : list string :=
  match s with
  | EmptyString => [EmptyString]
  | String a s' =>
      if eqc a c then EmptyString :: split c s'
      else match split c s' with
           | h :: t => String a h :: t
           | [] => [String a EmptyString]
           end
  end.

(** [sep.join(l)] *)
Fixpoint join (sp : string) (l : list string) : string :=
  match l with
  | [] => EmptyString
  | [x] => x
  | x :: t => x +:+ sp +:+ join sp t
  end.

(** [''.join(l)] *)
Definition concat (l : list string) : string := fold_right String.append EmptyString l.

Definition is_lower (c : ascii) : bool :=
  let n := nat_of_ascii c in (97 <=? n) && (n <=? 122).
Definition is_upper (c : ascii) : bool :=
  let n := nat_of_ascii c in (65 <=? n) && (n <=? 90).
Definition is_digit (c : ascii) : bool :=
  let n := nat_of_ascii c in (48 <=? n) && (n <=? 57).
Definition to_upper (c : ascii) : ascii :=
  if is_lower c then ascii_of_nat (nat_of_ascii c - 32) else c.
Definition to_lower (c : ascii) : ascii :=
  if is_upper c then ascii_of_nat (nat_of_ascii c + 32) else c.

(** [s.title()] on ASCII characters: a cased character is upper-cased when
    the character before it is not cased, and lower-cased otherwise. *)
Fixpoint title_from (previous_is_cased : bool) (s : string) : string :=
  match s with
  | EmptyString => EmptyString
  | String a s' =>
      if is_lower a || is_upper a
      then String (if previous_is_cased then to_lower a else to_upper a) (title_from true s')
      else String a (title_from false s')
  end.

Definition title (s : string) : string := title_from false s.

(** the characters [\w] of [re], among the ASCII characters *)
Definition is_word (c : ascii) : bool :=
  is_lower c || is_upper c || is_digit c || eqc c "_"%char.

(** [s.isascii()]: every character is below 128.  Casing ([title],
    [lower]) and the class [\w] are those of Python on such strings; on
    other characters Python follows Unicode, which is outside this model,
    so the statements that depend on them ask for [is_ascii]. *)
Definition is_ascii (s : string) : bool :=
  forallb (fun c => nat_of_ascii c <? 128) (list_ascii_of_string s).

(** [s.lower()] *)
Fixpoint lower (s : string) : string :=
  match s with
  | EmptyString => EmptyString
  | String a s' => String (to_lower a) (lower s')
  end.

(** [s.upper()] *)
Fixpoint upper (s : string) : string :=
  match s with
  | EmptyString => EmptyString
  | String a s' => String (to_upper a) (upper s')
  end.

(** [s.find(c, start)] for a one-character [c]: the first index at or after
    [start], [None] standing for -1 *)
Fixpoint find (c : ascii) (start : nat) (s : string) : option nat :=
  match s with
  | EmptyString => None
  | String a s' =>
      match start with
      | O => if eqc a c then Some 0 else S <$> find c 0 s'
      | S k => S <$> find c k s'
      end
  end.

(** [s.lstrip(c)] for a one-character [c] *)
Fixpoint lstrip (c : ascii) (s : string) : string :=
  match s with
  | String a s' => if eqc a c then lstrip c s' else s
  | EmptyString => EmptyString
  end.

Fixpoint mem (c : ascii) (s : string) : bool :=
  match s with
  | EmptyString => false
  | String a s' => eqc a c || mem c s'
  end.

(** [s[-n:]] for a positive [n]: the last [n] characters, or all of [s] *)
Definition last_n (n : nat) (s : string) : string :=
  drop (String.length s - n) s.

(** [s.rfind(c)]: the last index of the character, [None] standing for -1 *)
Fixpoint rfind (c : ascii) (s : string) : option nat :=
  match s with
  | EmptyString => None
  | String a s' =>
      match rfind c s' with
      | Some j => Some (S j)
      | None => if eqc a c then Some 0 else None
      end
  end.

(** [''.join([piece] * n)] *)
Definition times (piece : string) (n : nat) : string :=
  concat (List.repeat piece n).

End Str.

(** ** [posixpath] *)

Module posixpath.

Definition curdir : string := ".".
Definition pardir : string := "..".

(** one step of the loop of [join]: the path so far and the next argument *)
Definition join2 (path b : string) : string :=
  if Str.startswith "/" b then b
  else if negb (Str.truthy path) || Str.endswith_char Str.sep path then path +:+ b
  else path +:+ "/" +:+ b.

Definition join (a : string) (p : list string) : string := fold_left join2 p a.

(** [basename(p)]: what follows the last separator. *)
Definition basename (p : string) : string := List.last (Str.split Str.sep p) EmptyString.

(** the number of initial slashes [normpath] keeps: 0, 1 or 2 *)
Definition initial_slashes (path : string) : nat :=
  if Str.startswith "/" path
  then if Str.startswith "//" path && negb (Str.startswith "///" path) then 2 else 1
  else 0.

(** the body of the loop of [normpath]; [new_comps] is kept reversed, so that
    its head is [new_comps[-1]] *)
Definition norm_step (slashes : nat) (new_comps : list string) (comp : string) : list string :=
  if String.eqb comp "" || String.eqb comp "." then new_comps
  else if negb (String.eqb comp "..")
          || ((slashes =? 0) && match new_comps with [] => true | _ => false end)
          || match new_comps with c :: _ => String.eqb c ".." | [] => false end
       then comp :: new_comps
       else match new_comps with
            | _ :: rest => rest
            | [] => []
            end.

Fixpoint repeat_sep (n : nat) : string :=
  match n with
  | O => EmptyString
  | S k => String Str.sep (repeat_sep k)
  end.

Definition normpath (path : string) : string :=
  if negb (Str.truthy path) then "."
  else
    let slashes := initial_slashes path in
    let comps := rev (fold_left (norm_step slashes) (Str.split Str.sep path) []) in
    let path' := repeat_sep slashes +:+ Str.join "/" comps in
    if Str.truthy path' then path' else ".".

Definition isabs (s : string) : bool := Str.startswith "/" s.

(** [abspath(path)], with the working directory [os.getcwd()] as [cwd] *)
Definition abspath (cwd path : string) : string :=
  normpath (if isabs path then path else join2 cwd path).

(** [commonprefix([l1, l2])] on two lists of components *)
Fixpoint commonprefix (l1 l2 : list string) : list string :=
  match l1, l2 with
  | a :: l1', b :: l2' => if String.eqb a b then a :: commonprefix l1' l2' else []
  | _, _ => []
  end.

Definition path_list (cwd p : string) : list string :=
  List.filter Str.truthy (Str.split Str.sep (abspath cwd p)).

(** [relpath(path, start)]; it raises [ValueError] on an empty [path]. *)
Definition relpath (cwd path start : string) : result string :=
  if negb (Str.truthy path) then Raise ValueError
  else
    let start_list := path_list cwd start in
    let path_list := path_list cwd path in
    let i := List.length (commonprefix start_list path_list) in
    let rel_list := List.repeat pardir (List.length start_list - i) ++ List.skipn i path_list in
    match rel_list with
    | [] => Ok curdir
    | a :: p => Ok (join a p)
    end.

(** [splitext(p)]: the extension starts at the last dot of the last
    component, unless only dots stand before it in that component. *)
Definition splitext (p : string) : string * string :=
  let sepIndex := Str.rfind Str.sep p in
  let dotIndex := Str.rfind "."%char p in
  match dotIndex with
  | None => (p, EmptyString)
  | Some dotIndex =>
      let filenameIndex := match sepIndex with Some i => S i | None => 0 end in
      if (filenameIndex <=? dotIndex)
         && existsb (fun a => negb (Str.eqc a "."%char))
              (list_ascii_of_string
                 (Str.take (dotIndex - filenameIndex) (Str.drop filenameIndex p)))
      then (Str.take dotIndex p, Str.drop dotIndex p)
      else (p, EmptyString)
  end.

End posixpath.

(** ** [ntpath], the [os.path] of a Windows host

    The functions are those of [ntpath.py]; [normpath] and [abspath] are
    the ones the module defines itself, which on a Windows host stand
    behind the calls [nt._path_normpath] and [nt._getfullpathname] of the
    operating system. *)

Module ntpath.

Definition sep : string := String Str.backslash EmptyString.
Definition altsep : string := "/".
Definition curdir : string := ".".
Definition pardir : string := "..".

(** [c in seps] *)
Definition is_sep (c : ascii) : bool := Str.eqc c Str.backslash || Str.eqc c "/"%char.

(** [s and s[0] in seps] *)
Definition starts_with_sep (s : string) : bool :=
  match s with
  | String a _ => is_sep a
  | EmptyString => false
  end.

(** [s and s[-1] not in seps] *)
Definition ends_without_sep (s : string) : bool :=
  Str.truthy s
  && negb (Str.endswith_char Str.backslash s || Str.endswith_char "/"%char s).

(** [normcase(s)] *)
Definition normcase (s : string) : string := Str.lower (Str.replace altsep sep s).

(** [splitdrive(p)] *)
Definition splitdrive (p : string) : string * string :=
  if 2 <=? String.length p then
    let unc_prefix := sep +:+ sep +:+ "?" +:+ sep +:+ "UNC" +:+ sep in
    let normp := Str.replace altsep sep p in
    if String.eqb (Str.take 2 normp) (sep +:+ sep) then
      let start := if String.eqb (Str.upper (Str.take 8 normp)) unc_prefix then 8 else 2 in
      match Str.find Str.backslash start normp with
      | None => (p, EmptyString)
      | Some index =>
          match Str.find Str.backslash (index + 1) normp with
          | None => (p, EmptyString)
          | Some index2 => (Str.take index2 p, Str.drop index2 p)
          end
      end
    else if String.eqb (Str.take 1 (Str.drop 1 normp)) ":" then (Str.take 2 p, Str.drop 2 p)
    else (EmptyString, p)
  else (EmptyString, p).

(** [isabs(s)] *)
Definition isabs (s : string) : bool :=
  let s := Str.replace altsep sep (Str.take 3 s) in
  Str.startswith sep s || Str.startswith (":" +:+ sep) (Str.drop 1 s).

(** the body of the loop of [join], on [result_drive] and [result_path] *)
Definition join_step (result : string * string) (p : string) : string * string :=
  let '(result_drive, result_path) := result in
  let '(p_drive, p_path) := splitdrive p in
  if starts_with_sep p_path then
    (if Str.truthy p_drive || negb (Str.truthy result_drive) then p_drive else result_drive,
     p_path)
  else
    let append (result_drive : string) :=
      let result_path :=
        if ends_without_sep result_path then result_path +:+ sep else result_path in
      (result_drive, result_path +:+ p_path) in
    if Str.truthy p_drive && negb (String.eqb p_drive result_drive) then
      if negb (String.eqb (Str.lower p_drive) (Str.lower result_drive))
      then (p_drive, p_path)
      else append p_drive
    else append result_drive.

(** [join(path, *paths)] *)
Definition join (path : string) (paths : list string) : string :=
  let '(result_drive, result_path) := fold_left join_step paths (splitdrive path) in
  if Str.truthy result_path && negb (starts_with_sep result_path)
     && Str.truthy result_drive && negb (Str.endswith_char ":"%char result_drive)
  then result_drive +:+ sep +:+ result_path
  else result_drive +:+ result_path.

(** the body of the loop of [normpath]: [comps[:i]] is kept reversed, and
    [rooted] says that the prefix ends with a separator *)
Definition norm_step (rooted : bool) (done : list string) (comp : string) : list string :=
  if String.eqb comp "" || String.eqb comp curdir then done
  else if String.eqb comp pardir then
    match done with
    | c :: rest => if negb (String.eqb c pardir) then rest else comp :: done
    | [] => if rooted then [] else [comp]
    end
  else comp :: done.

(** [normpath(path)] *)
Definition normpath (path : string) : string :=
  let path := Str.replace altsep sep path in
  let '(prefix, path) := splitdrive path in
  let rooted := Str.startswith sep path in
  let prefix := if rooted then prefix +:+ sep else prefix in
  let path := if rooted then Str.lstrip Str.backslash path else path in
  let comps := rev (fold_left (norm_step (Str.endswith_char Str.backslash prefix))
                      (Str.split Str.backslash path) []) in
  let comps := if negb (Str.truthy prefix) && match comps with [] => true | _ => false end
               then [curdir] else comps in
  prefix +:+ Str.join sep comps.

(** [abspath(path)], with the working directory [os.getcwd()] as [cwd] *)
Definition abspath (cwd path : string) : string :=
  normpath (if negb (isabs path) then join cwd [path] else path).

(** the length of the common start of two lists of components, compared
    through [normcase] *)
Fixpoint common (l1 l2 : list string) : nat :=
  match l1, l2 with
  | e1 :: l1', e2 :: l2' =>
      if String.eqb (normcase e1) (normcase e2) then S (common l1' l2') else 0
  | _, _ => 0
  end.

(** [relpath(path, start)]: [ValueError] for an empty path, and for a path
    and a start on different drives *)
Definition relpath (cwd path start : string) : result string :=
  if negb (Str.truthy path) then Raise ValueError
  else
    let start_abs := abspath cwd (normpath start) in
    let path_abs := abspath cwd (normpath path) in
    let '(start_drive, start_rest) := splitdrive start_abs in
    let '(path_drive, path_rest) := splitdrive path_abs in
    if negb (String.eqb (normcase start_drive) (normcase path_drive))
    then Raise ValueError
    else
      let start_list := List.filter Str.truthy (Str.split Str.backslash start_rest) in
      let path_list := List.filter Str.truthy (Str.split Str.backslash path_rest) in
      let i := common start_list path_list in
      let rel_list := List.repeat pardir (List.length start_list - i) ++ List.skipn i path_list in
      match rel_list with
      | [] => Ok curdir
      | a :: p => Ok (join a p)
      end.

End ntpath.

(** ** The regular expressions of the program *)

Module re.

(** [re.sub('^/|/$', '', s)] for the separator [/]: a slash at the start goes,
    and so does a slash at the end, where [$] also stands before a final
    newline.  The scan goes from left to right, so a slash taken as the
    first one is not looked at again. *)
Fixpoint sub_final_slash (s : string) : string :=
  match s with
  | EmptyString => EmptyString
  | String a s' =>
      if Str.eqc a Str.sep
         && (String.eqb s' EmptyString || String.eqb s' (String Str.newline EmptyString))
      then s'
      else String a (sub_final_slash s')
  end.

Definition sub_slash_ends (s : string) : string :=
  match s with
  | String a s' => if Str.eqc a Str.sep then sub_final_slash s' else sub_final_slash s
  | EmptyString => EmptyString
  end.

(** [.*}] from the current position: [.] takes any character but a newline. *)
Fixpoint dotstar_close (s : string) : bool :=
  match s with
  | EmptyString => false
  | String a s' =>
      if Str.eqc a "}"%char then true
      else if Str.eqc a Str.newline then false
      else dotstar_close s'
  end.

(** [re.match('{.*}', s)] as a truth value *)
Definition match_placeholder (s : string) : bool :=
  match s with
  | String a s' => Str.eqc a "{"%char && dotstar_close s'
  | EmptyString => false
  end.

(** [(?:\b|$)] right after the [d] of [.md]: the end of the string, or a
    character that is not one of [\w]. *)
Definition boundary (s : string) : bool :=
  match s with
  | EmptyString => true
  | String a _ => negb (Str.is_word a)
  end.

(** [re.sub('\.md(?:\b|$)', '.html', s)] *)
Fixpoint sub_md (s : string) : string :=
  match s with
  | EmptyString => EmptyString
  | String a s1 =>
      match s1 with
      | String b (String c s3 as s2) =>
          if Str.eqc a "."%char && Str.eqc b "m"%char && Str.eqc c "d"%char && boundary s3
          then ".html" +:+ sub_md s3
          else String a (sub_md s1)
      | _ => String a (sub_md s1)
      end
  end.

(** [re.match('^/', s)] as a truth value *)
Definition match_slash (s : string) : bool := Str.startswith "/" s.

End re.

(** [slash_trim(s)] *)
Definition slash_trim (s : string) : string := re.sub_slash_ends s.

(** ** The operating system: the working directory and the files that exist *)

Record OS : Type := {
  getcwd : string;
  path_exists : string -> bool   (* [os.path.exists] *)
}.

(** [get_url_path(link, path, root, webroot)], on a host where [os.path] is
    [posixpath] *)
Definition get_url_path (os : OS) (link path root webroot : string) : result string :=
  let link := Str.replace "file:///" "" link in
  let link_path := posixpath.abspath (getcwd os) (posixpath.join2 path link) in
  let root_path := posixpath.abspath (getcwd os) root in
  url ← posixpath.relpath (getcwd os) link_path root_path;
  let url := posixpath.join2 webroot url in
  let url := Str.replace (String Str.backslash EmptyString) "/" url in
  let url := if negb (re.match_slash url) then "/" +:+ url else url in
  Ok url.

(** [get_url_path] on a Windows host: the same statements, with [ntpath]
    as [os.path] *)
Module windows.

Definition get_url_path (os : OS) (link path root webroot : string) : result string :=
  let link := Str.replace "file:///" "" link in
  let link_path := ntpath.abspath (getcwd os) (ntpath.join path [link]) in
  let root_path := ntpath.abspath (getcwd os) root in
  url ← ntpath.relpath (getcwd os) link_path root_path;
  let url := ntpath.join webroot [url] in
  let url := Str.replace (String Str.backslash EmptyString) "/" url in
  let url := if negb (re.match_slash url) then "/" +:+ url else url in
  Ok url.

End windows.

(** [bool(x)] for [x] a string or [None] *)
Definition truthy_opt (x : option string) : bool :=
  match x with
  | Some s => Str.truthy s
  | None => false
  end.

(** the three return statements of [_get_crumb]: [off] is 0 for the first
    two candidates and 1 for the third. *)
Definition crumb_result (os : OS) (crumb_path root : string) (off : nat)
    (start : option string) (is_local : bool) (webroot : string) : result string :=
  if is_local then
    if truthy_opt start
    then posixpath.relpath (getcwd os) crumb_path (default EmptyString start)
    else Ok (Str.drop (String.length root + off) crumb_path)
  else get_url_path os crumb_path "" root webroot.

(** [Breadcrumb._get_crumb(path, root, base, start, is_local, webroot)] *)
Definition _get_crumb (os : OS) (path root : string) (base : option string)
    (start : option string) (is_local : bool) (webroot : string)
  : result (option string) :=
  let root := slash_trim root in
  let path := slash_trim path in
  let path := posixpath.join2 root path in
  let base := match base with None => posixpath.basename path | Some b => b end in
  let file_base := base +:+ ".md" in
  let crumb_path := posixpath.join2 path file_base in
  if path_exists os crumb_path then
    Some <$> crumb_result os crumb_path root 0 start is_local webroot
  else
  let crumb_path := posixpath.join2 path "index.md" in
  if path_exists os crumb_path then
    Some <$> crumb_result os crumb_path root 0 start is_local webroot
  else
  parent ← posixpath.relpath (getcwd os) (posixpath.join2 path posixpath.pardir) posixpath.curdir;
  let crumb_path := posixpath.join "." [parent; file_base] in
  if path_exists os crumb_path then
    Some <$> crumb_result os crumb_path root 1 start is_local webroot
  else Ok None.

(** ** [str.format] with the keyword arguments [href] and [text]

    The model covers literal text, the escapes of the two braces, and the
    replacement fields that are a bare name.  A field with a conversion, a
    format specification or an attribute or index lookup is outside the
    model and is given as [ValueError]; nothing below depends on what
    such a field yields. *)

Definition all_digits (s : string) : bool :=
  Str.truthy s && forallb Str.is_digit (list_ascii_of_string s).

Definition format_field (href text name : string) : result string :=
  if String.eqb name "href" then Ok href
  else if String.eqb name "text" then Ok text
  else if String.eqb name "" || all_digits name then Raise IndexError
  else if Str.mem "!"%char name || Str.mem ":"%char name
          || Str.mem "."%char name || Str.mem "["%char name
       then Raise ValueError
       else Raise KeyError.

(** [field] is [Some name] inside a replacement field, with the part of the
    name read so far. *)
Fixpoint format_from (href text : string) (field : option string) (s : string)
  : result string :=
  match s with
  | EmptyString =>
      match field with
      | None => Ok EmptyString
      | Some _ => Raise ValueError
      end
  | String a s' =>
      match field with
      | Some name =>
          if Str.eqc a "}"%char
          then v ← format_field href text name;
               rest ← format_from href text None s';
               Ok (v +:+ rest)
          else format_from href text (Some (name +:+ String a EmptyString)) s'
      | None =>
          if Str.eqc a "{"%char then
            match s' with
            | String b s'' =>
                if Str.eqc b "{"%char
                then rest ← format_from href text None s''; Ok (String a rest)
                else format_from href text (Some EmptyString) s'
            | EmptyString => Raise ValueError
            end
          else if Str.eqc a "}"%char then
            match s' with
            | String b s'' =>
                if Str.eqc b "}"%char
                then rest ← format_from href text None s''; Ok (String a rest)
                else Raise ValueError
            | EmptyString => Raise ValueError
            end
          else rest ← format_from href text None s'; Ok (String a rest)
      end
  end.

(** [template.format(href=href, text=text)] *)
Definition str_format (template href text : string) : result string :=
  format_from href text None template.

(** the constant [BREADCRUMB] *)
Definition BREADCRUMB : string :=
  let nl := String Str.newline EmptyString in
  let quote := String "034"%char EmptyString in
  nl +:+ "<li>" +:+ nl
  +:+ "  <a href=" +:+ quote +:+ "{href}" +:+ quote +:+ ">{text}</a>" +:+ nl
  +:+ "</li>" +:+ nl.

(** ** [class Breadcrumb] *)

Record Breadcrumb : Type := {
  path : option string;
  md_file : option string;
  html_file : option string;
  text : string;
  html : string
}.

(** the class attributes, which an instance keeps when no index is found *)
Definition Breadcrumb_default : Breadcrumb :=
  {| path := None; md_file := None; html_file := None;
     text := EmptyString; html := EmptyString |}.

(** [Breadcrumb.__init__] *)
Definition Breadcrumb_init (os : OS) (root path text html_template : string)
    (start_path : option string) (is_local : bool) (webroot : string)
  : result Breadcrumb :=
  let path := slash_trim path in
  let root := slash_trim root in
  let base := if Str.truthy path then posixpath.basename path
              else posixpath.basename root in
  crumb_path ← _get_crumb os path root (Some base) start_path is_local webroot;
  match crumb_path with
  | Some crumb_path =>
      let crumb_path := slash_trim crumb_path in
      let html_file := Str.drop_last3 crumb_path +:+ ".html" in
      let text := if negb (Str.truthy text)
                  then Str.title (Str.replace "_" " " base) else text in
      html ← str_format html_template html_file text;
      Ok {| path := Some path; md_file := Some crumb_path;
            html_file := Some html_file; text := text; html := html |}
  | None => Ok Breadcrumb_default
  end.

(** [Breadcrumb.exists] *)
Definition exists_ (self : Breadcrumb) : bool :=
  0 <? String.length (html self).

(** ** [get_breadcrumbs] *)

(** [os.path.join] applied to the unpacked list [l]: with no argument at
    all it is a [TypeError]. *)
Definition join_star (l : list string) : result string :=
  match l with
  | a :: p => Ok (posixpath.join a p)
  | [] => Raise TypeError
  end.

(** the [path] argument of the [i]-th crumb *)
Definition crumb_dir (path : list string) (i : nat) : result string :=
  if i =? 0 then Ok EmptyString else join_star (firstn i path).

(** the [for] loop over the levels [i], appending to [crumbs] *)
Fixpoint crumbs_loop (os : OS) (root : string) (path : list string)
    (start_path : option string) (template : string) (is_local : bool)
    (webroot : string) (levels : list nat) (crumbs : list Breadcrumb)
  : result (list Breadcrumb) :=
  match levels with
  | [] => Ok crumbs
  | i :: levels' =>
      dir ← crumb_dir path i;
      crumb ← Breadcrumb_init os root dir EmptyString template start_path is_local webroot;
      crumbs_loop os root path start_path template is_local webroot levels'
        (if exists_ crumb then crumbs ++ [crumb] else crumbs)
  end.

Definition get_breadcrumbs (os : OS) (root path : string) (start_path : option string)
    (template : string) (is_local : bool) (webroot : string)
  : result (list Breadcrumb) :=
  let path := Str.split Str.sep (slash_trim path) in
  if Str.truthy (Str.concat path) then
    crumbs_loop os root path start_path template is_local webroot
      (seq 0 (List.length path + 1)) []
  else
    crumb ← Breadcrumb_init os root EmptyString EmptyString template start_path is_local webroot;
    Ok [crumb].

(** ** [class DocFragment]: the parsed fragment and the two attribute passes

    The parser and the serializer belong to BeautifulSoup.  The parsed
    fragment is the sequence of its elements in document order; an element
    has a tag name and the dictionary of its attributes, whose values are
    strings, or [None] once [fix_imgs] has stored one. *)

Record Tag : Type := {
  name : string;
  attrs : gmap string (option string)
}.

(** [tag.get(key)] *)
Definition get (tag : Tag) (key : string) : option string :=
  attrs tag !! key ≫= id.

(** [tag[key] = value] *)
Definition set (tag : Tag) (key : string) (value : option string) : Tag :=
  {| name := name tag; attrs := <[key := value]> (attrs tag) |}.

Record DocFragment : Type := {
  is_local : bool;
  doc_path : string;
  doc_root : string;
  webroot : string;
  soup : list Tag
}.

Definition with_soup (self : DocFragment) (s : list Tag) : DocFragment :=
  {| is_local := is_local self; doc_path := doc_path self;
     doc_root := doc_root self; webroot := webroot self; soup := s |}.

(** [soup.select(tag_name)] picks the elements of that name; the loops below
    visit every element and leave the others as they are. *)
Definition selected (tag_name : string) (tag : Tag) : bool :=
  String.eqb (name tag) tag_name.

(** the body of the loop of [fix_links]: the flag [is_xlink] lives outside
    the loop, so it is a loop state. *)
Definition fix_link (os : OS) (self : DocFragment) (is_xlink : bool) (link : Tag)
  : result (bool * Tag) :=
  let href := get link "href" in
  let '(href, is_xlink) :=
    if negb (truthy_opt href) then (get link "xlink:href", true)
    else (href, is_xlink) in
  match href with
  | None => Raise TypeError
  | Some href =>
      if negb (re.match_placeholder href) then
        href ← (if negb (is_local self)
                then get_url_path os href (doc_path self) (doc_root self) (webroot self)
                else Ok href);
        let href := re.sub_md href in
        if is_xlink
        then Ok (is_xlink, set link "xlink:href" (Some href))
        else Ok (is_xlink, set link "href" (Some href))
      else Ok (is_xlink, link)
  end.

Fixpoint fix_links_loop (os : OS) (self : DocFragment) (is_xlink : bool)
    (tags : list Tag) : result (list Tag) :=
  match tags with
  | [] => Ok []
  | tag :: tags' =>
      if selected "a" tag then
        r ← fix_link os self is_xlink tag;
        rest ← fix_links_loop os self (fst r) tags';
        Ok (snd r :: rest)
      else
        rest ← fix_links_loop os self is_xlink tags';
        Ok (tag :: rest)
  end.

(** [DocFragment.fix_links] *)
Definition fix_links (os : OS) (self : DocFragment) : result DocFragment :=
  with_soup self <$> fix_links_loop os self false (soup self).

(** the body of the loop of [fix_imgs]; [None.replace] is an [AttributeError]. *)
Definition fix_img (os : OS) (self : DocFragment) (img : Tag) : result Tag :=
  let src := get img "src" in
  src ← (if negb (is_local self) then
           match src with
           | Some src =>
               Some <$> get_url_path os src (doc_path self) (doc_root self) (webroot self)
           | None => Raise AttributeError
           end
         else Ok src);
  Ok (set img "src" src).

Fixpoint fix_imgs_loop (os : OS) (self : DocFragment) (tags : list Tag)
  : result (list Tag) :=
  match tags with
  | [] => Ok []
  | tag :: tags' =>
      tag ← (if selected "img" tag then fix_img os self tag else Ok tag);
      rest ← fix_imgs_loop os self tags';
      Ok (tag :: rest)
  end.

(** [DocFragment.fix_imgs] *)
Definition fix_imgs (os : OS) (self : DocFragment) : result DocFragment :=
  with_soup self <$> fix_imgs_loop os self (soup self).

(** [DocFragment.fix_html] *)
Definition fix_html (os : OS) (self : DocFragment) : result DocFragment :=
  self ← fix_links os self;
  fix_imgs os self.

(** ** The driver, for one convertible file

    Of the body of [try], [find_title] only reads the parsed fragment and
    [write_file] comes after [fix_html]; the bare [except] around them
    reports the file and goes on with the next one. *)

Inductive outcome : Type :=
| Written (doc : DocFragment)
| ErrorReported.

Definition convert_file (os : OS) (fragment : DocFragment) : outcome :=
  match fix_html os fragment with
  | Ok doc => Written doc
  | Raise _ => ErrorReported
  end.

(** ** [DocFragment.find_title] and the output path of [write_file]

    [h1] is the text of the first top-level heading of the parsed
    fragment, when there is one; [file_name] is [None] for a fragment that
    was not read from a file. *)

Definition find_title (h1 default file_name : option string) : result string :=
  match h1 with
  | Some text => Ok text
  | None =>
      match default with
      | Some title => Ok title
      | None =>
          match file_name with
          | Some file_name => Ok (fst (posixpath.splitext (posixpath.basename file_name)))
          | None => Raise TypeError
          end
      end
  end.

(** [file_path_out] in [write_file] *)
Definition file_path_out (path_out file_name : string) : string :=
  if String.eqb (Str.last_n 3 file_name) ".md"
  then posixpath.join2 path_out
         (fst (posixpath.splitext (posixpath.basename file_name)) +:+ ".html")
  else posixpath.join2 path_out file_name.

(** ** The walk of the driver *)

(** [base_out] *)
Definition base_out (root dirout : string) : string := posixpath.join2 root dirout.


(** the test [rt[:len(base_out)] != base_out] that lets a directory through *)
Definition walked (root dirout rt : string) : bool :=
  negb (String.eqb (Str.take (String.length (base_out root dirout)) rt)
          (base_out root dirout)).

(** the step of the counter [prog] *)
Definition next_prog (prog : nat) : nat := (prog + 1) mod 20.

(** the line printed for a value of [prog] *)
Definition progress_line (prog : nat) : string :=
  Str.times " " (if prog <=? 10 then 0 else prog - 10)
  +:+ Str.times "." (if prog <=? 10 then prog else 20 - prog)
  +:+ Str.times " " (if prog <=? 10 then 10 - prog else 0).

(** ** [parse_sys_args]

    A value of the dictionary [args] is a string, [True], or a list of
    strings.  [exit] raises [SystemExit], and the bare [except] around the
    loop catches it like any other exception. *)

Inductive argval : Type :=
| VStr (s : string)
| VTrue
| VList (l : list string).

Inductive message : Type :=
| Doc                       (* [__doc__] *)
| MustBeFollowed            (* [__doc__], then "Error - ... must be followed by an argument" *)
| UnknownArgument (arg : string)
| UnknownError.

Inductive interrupt : Type :=
| SystemExit (code : nat)
| KeyErrorRaised
| AttributeErrorRaised.

(** the constant [ARGV_SHORTCUTS] *)
Definition ARGV_SHORTCUTS : list (ascii * string) :=
  [("b"%char, "breadcrumb"); ("c"%char, "css"); ("d"%char, "dirout");
   ("h"%char, "html"); ("j"%char, "js"); ("l"%char, "local");
   ("p"%char, "path"); ("t"%char, "title"); ("w"%char, "webpath")].

(** the keys of [DEFAULT_ARGS] *)
Definition DEFAULT_KEYS : list string :=
  ["breadcrumb"; "css"; "dirout"; "html"; "js"; "local"; "path"; "title"; "webpath"].

Definition in_keys (key : string) (keys : list string) : bool :=
  existsb (String.eqb key) keys.

Fixpoint shortcut (c : ascii) (table : list (ascii * string)) : option string :=
  match table with
  | [] => None
  | (a, key) :: table' => if Str.eqc a c then Some key else shortcut c table'
  end.

(** [re.match('-\\w$', s)]: a dash, a word character, and the end of the
    string or a newline that ends it; the result is the word character. *)
Definition match_short (s : string) : option ascii :=
  match s with
  | String d (String c rest) =>
      if Str.eqc d "-"%char && Str.is_word c
         && (String.eqb rest EmptyString || String.eqb rest (String Str.newline EmptyString))
      then Some c else None
  | _ => None
  end.

(** the state of the loop: the dictionary, [next_key], and what was printed *)
Record parse_state : Type := {
  args : gmap string argval;
  next_key : option string;
  printed : list message
}.

(** the statements after the [if]/[elif] chain: what to do with [key] *)
Definition note_key (st : parse_state) (arg : string) (key : option string)
  : parse_state + (list message * interrupt) :=
  match key with
  | Some k =>
      if in_keys k DEFAULT_KEYS then
        if String.eqb k "local"
        then inl {| args := <["local" := VTrue]> (args st); next_key := None;
                    printed := printed st |}
        else inl {| args := args st; next_key := Some k; printed := printed st |}
      else if Str.truthy k
      then inr (printed st ++ [UnknownArgument arg], SystemExit 1)
      else inl st
  | None => inl st
  end.

(** the body of the loop for one argument *)
Definition parse_arg (st : parse_state) (arg : string)
  : parse_state + (list message * interrupt) :=
  if String.eqb (Str.take 2 arg) "--" then
    if String.eqb (Str.drop 2 arg) "help"
    then inr (printed st ++ [Doc], SystemExit 0)
    else note_key st arg (Some (Str.drop 2 arg))
  else
    match match_short arg with
    | Some c =>
        match shortcut c ARGV_SHORTCUTS with
        | Some key => note_key st arg (Some key)
        | None => inr (printed st, KeyErrorRaised)
        end
    | None =>
        match next_key st with
        | Some nk =>
            if in_keys nk ["css"; "js"] then
              match args st !! nk with
              | Some (VList l) =>
                  inl {| args := <[nk := VList (l ++ [arg])]> (args st);
                         next_key := next_key st; printed := printed st |}
              | Some _ => inr (printed st, AttributeErrorRaised)
              | None => inr (printed st, KeyErrorRaised)
              end
            else if in_keys nk DEFAULT_KEYS then
              if negb (Str.truthy arg)
              then inr (printed st ++ [MustBeFollowed], SystemExit 1)
              else inl {| args := <[nk := VStr arg]> (args st); next_key := None;
                          printed := printed st |}
            else inl st
        | None => inl st
        end
    end.

Fixpoint parse_loop (st : parse_state) (argv : list string)
  : parse_state + (list message * interrupt) :=
  match argv with
  | [] => inl st
  | arg :: argv' =>
      match parse_arg st arg with
      | inl st' => parse_loop st' argv'
      | inr stop => inr stop
      end
  end.

Inductive parse_outcome : Type :=
| Parsed (args : gmap string argval) (printed : list message)
| Exited (code : nat) (printed : list message).

(** [parse_sys_args()], with [sys.argv] as [argv]: the loop starts at index
    1, and whatever interrupts it ends in the handler, which prints and
    exits with 1. *)
Definition parse_sys_args (argv : list string) : parse_outcome :=
  let start := {| args := {[ "css" := VList []; "js" := VList [] ]};
                  next_key := None; printed := [] |} in
  match parse_loop start (List.tl argv) with
  | inl st => Parsed (args st) (printed st)
  | inr (out, _) => Exited 1 (out ++ [UnknownError])
  end.

(** * Vocabulary of the statements *)

(** ** Components of a path *)

Definition slashfree (s : string) : bool := negb (Str.mem Str.sep s).

(** a component that [normpath] keeps on an absolute path *)
Definition clean (c : string) : bool :=
  Str.truthy c && negb (String.eqb c ".") && negb (String.eqb c "..") && slashfree c.

Definition all_clean (l : list string) : Prop := Forall (fun c => clean c = true) l.
Definition all_slashfree (l : list string) : Prop := Forall (fun c => slashfree c = true) l.

(** the body of the loop of [normpath] when the path has initial slashes *)
Definition step : list string -> string -> list string := posixpath.norm_step 1.

(** the argument that [abspath] hands to [normpath] *)
Definition absolute (cwd p : string) : string :=
  if posixpath.isabs p then p else posixpath.join2 cwd p.

(** the components of [abspath p], last one first *)
Definition stack (cwd p : string) : list string :=
  fold_left step (Str.split Str.sep (absolute cwd p)) [].

(** the list [rel_list] of [relpath] *)
Definition rel_list (start_list path_list : list string) : list string :=
  let i := List.length (posixpath.commonprefix start_list path_list) in
  List.repeat posixpath.pardir (List.length start_list - i) ++ List.skipn i path_list.

(** what [relpath] returns for a [rel_list] *)
Definition rel_join (rel : list string) : string :=
  match rel with
  | [] => posixpath.curdir
  | a :: p => posixpath.join a p
  end.

(** ** Links *)

(** the last two steps of [get_url_path], on the joined path [url]: they do
    not use [os.path] *)
Definition web_url (url : string) : string :=
  let url := Str.replace (String Str.backslash EmptyString) "/" url in
  if negb (re.match_slash url) then "/" +:+ url else url.

(** the value [fix_links] and [fix_imgs] go on with: the link itself in
    Local mode, its URL in Web mode *)
Definition resolved (os : OS) (self : DocFragment) (link : string) : result string :=
  if negb (is_local self)
  then get_url_path os link (doc_path self) (doc_root self) (webroot self)
  else Ok link.

(** the value the loop of [fix_links] reads from an anchor *)
Definition href_read (link : Tag) : option string :=
  if truthy_opt (get link "href") then get link "href" else get link "xlink:href".

(** [.md] occurs somewhere in [s] *)
Fixpoint has_md (s : string) : bool :=
  match s with
  | EmptyString => false
  | String _ s' => Str.startswith ".md" s || has_md s'
  end.

(** the test of [re.sub_md] at the head of a string *)
Definition md_here (s : string) : bool :=
  Str.startswith ".md" s && re.boundary (Str.drop 3 s).

(** the pattern matches at the index [i] of [s]: [.md] stands there, before
    the end of [s] or a character that is no word character *)
Definition md_at (s : string) (i : nat) : bool := md_here (Str.drop i s).

(** [w] is [v] with [.html] in the place of [.md] at every match of the
    pattern, the matches taken from left to right, and with every other
    character kept: either there is no match and [w] is [v], or [v] is
    [p.md q] with the first match right after [p], and [w] is [p.html]
    followed by [q] rewritten in the same way. *)
Inductive md_rewritten : string -> string -> Prop :=
| md_rewritten_none (v : string) :
    (forall i, md_at v i = false) -> md_rewritten v v
| md_rewritten_first (p q w : string) :
    (forall i, i < String.length p -> md_at (p +:+ ".md" +:+ q) i = false) ->
    re.boundary q = true ->
    md_rewritten q w ->
    md_rewritten (p +:+ ".md" +:+ q) (p +:+ ".html" +:+ w).

(** ** Crumbs *)

(** the name [__init__] looks for: that of the directory, or that of the
    root for the empty path *)
Definition crumb_base (root path : string) : string :=
  if Str.truthy (slash_trim path) then posixpath.basename (slash_trim path)
  else posixpath.basename (slash_trim root).

(** the index lookup that [__init__] makes for the directory [path] *)
Definition index_of (os : OS) (root : string) (start_path : option string)
    (is_local : bool) (webroot path : string) : result (option string) :=
  _get_crumb os (slash_trim path) (slash_trim root) (Some (crumb_base root path))
    start_path is_local webroot.

(** the text of a crumb *)
Definition crumb_text (root path text : string) : string :=
  if negb (Str.truthy text) then Str.title (Str.replace "_" " " (crumb_base root path))
  else text.

(** the index of a crumb resolved *)
Definition has_index (c : Breadcrumb) : bool :=
  match md_file c with
  | Some _ => true
  | None => false
  end.

(** the crumb that the loop of [get_breadcrumbs] builds for the level [i] of
    the components [comps] *)
Definition candidate (os : OS) (root : string) (start_path : option string)
    (is_local : bool) (webroot template : string) (comps : list string)
    (i : nat) (c : Breadcrumb) : Prop :=
  exists dir located,
    crumb_dir comps i = Ok dir
    /\ index_of os root start_path is_local webroot dir = Ok located
    /\ Breadcrumb_init os root dir "" template start_path is_local webroot = Ok c
    /\ md_file c = slash_trim <$> located.

(** ** Sample inputs *)

Definition os_example (files : list string) : OS :=
  {| getcwd := "/srv/site"; path_exists := fun p => existsb (String.eqb p) files |}.

(** a file system in which exactly the files [files] exist, each named by
    its absolute, normalised path: a path exists when, from the working
    directory, it leads to one of them *)
Definition os_files (cwd : string) (files : list string) : OS :=
  {| getcwd := cwd;
     path_exists := fun p => existsb (String.eqb (posixpath.abspath cwd p)) files |}.

Definition anchor (l : list (string * option string)) : Tag :=
  {| name := "a"; attrs := list_to_map l |}.

Definition img (l : list (string * option string)) : Tag :=
  {| name := "img"; attrs := list_to_map l |}.

Definition doc_example (local : bool) (tags : list Tag) : DocFragment :=
  {| is_local := local; doc_path := "docs/a"; doc_root := "docs";
     webroot := "site"; soup := tags |}.

(** ** Vocabulary of the further properties *)

(** the characters of [s] that are no separators, in order *)
Fixpoint without_slashes (s : string) : string :=
  match s with
  | EmptyString => EmptyString
  | String a s' =>
      if Str.eqc a Str.sep then without_slashes s' else String a (without_slashes s')
  end.

(** a character other than the dot occurs in [s] *)
Definition has_non_dot (s : string) : bool :=
  existsb (fun a => negb (Str.eqc a "."%char)) (list_ascii_of_string s).

(** [t'] is [t] but for the attributes named in [keys] *)
Definition same_but (keys : list string) (t t' : Tag) : Prop :=
  name t' = name t
  /\ forall k, ~ In k keys -> attrs t' !! k = attrs t !! k.

(** what holds of a crumb that the loop of [get_breadcrumbs] keeps *)
Definition kept (c : Breadcrumb) : Prop :=
  exists_ c = true /\ has_index c = true
  /\ (exists p, path c = Some p) /\ (exists f, html_file c = Some f).

(** a command-line argument of ASCII characters that is no option: neither
    [--...] nor a dash and one word character *)
Definition plain (arg : string) : bool :=
  Str.is_ascii arg
  && negb (String.eqb (Str.take 2 arg) "--")
  && match match_short arg with Some _ => false | None => true end.

(** an argument that stops [parse_sys_args]: the help option, a long option
    whose name is no key of [DEFAULT_ARGS], a short option whose letter is
    no key of [ARGV_SHORTCUTS] *)
Definition fatal (arg : string) : bool :=
  if String.eqb (Str.take 2 arg) "--"
  then String.eqb (Str.drop 2 arg) "help"
       || (negb (in_keys (Str.drop 2 arg) DEFAULT_KEYS) && Str.truthy (Str.drop 2 arg))
  else match match_short arg with
       | Some c => match shortcut c ARGV_SHORTCUTS with Some _ => false | None => true end
       | None => false
       end.

(** the value that [_get_crumb] returns for a candidate [c] it has found,
    said with the components of the paths.  In Local mode with a start
    location: the relative path that leads from the start to [c].  In Local
    mode without one: [c] without its first characters, as many as the root
    has, and one more for the third candidate.  In Web mode: the web root
    joined with the relative path from the root to [c], as a URL. *)
Definition crumb_value (os : OS) (root : string) (start : option string)
    (is_local : bool) (webroot c : string) (off : nat) : string :=
  let cwd := getcwd os in
  if is_local then
    if truthy_opt start
    then rel_join (rel_list (posixpath.path_list cwd (default "" start))
                     (posixpath.path_list cwd c))
    else Str.drop (String.length root + off) c
  else web_url (posixpath.join2 webroot
                  (rel_join (rel_list (posixpath.path_list cwd root)
                               (posixpath.path_list cwd (Str.replace "file:///" "" c))))).

(** the shape of the dictionary that [parse_sys_args] builds *)
Definition typed_args (a : gmap string argval) : Prop :=
  (forall k v, a !! k = Some v -> In k DEFAULT_KEYS)
  /\ (exists l, a !! "css" = Some (VList l))
  /\ (exists l, a !! "js" = Some (VList l))
  /\ (forall v, a !! "local" = Some v -> v = VTrue)
  /\ (forall k v, a !! k = Some v -> k <> "css" -> k <> "js" -> k <> "local" ->
      exists s, v = VStr s /\ Str.truthy s = true).

(** the invariant of the loop of [parse_sys_args] *)
Definition parse_inv (st : parse_state) : Prop :=
  typed_args (args st)
  /\ printed st = []
  /\ forall nk, next_key st = Some nk -> In nk DEFAULT_KEYS /\ nk <> "local".

(** * Properties *)

(** ** Strings *)

Lemma eqc_true a b : Str.eqc a b = true <-> a = b.
Proof. unfold Str.eqc. apply Ascii.eqb_eq. Qed.

Lemma eqc_refl a : Str.eqc a a = true.
Proof. apply eqc_true. reflexivity. Qed.

Lemma append_nil (b : string) : "" +:+ b = b.
Proof. reflexivity. Qed.

Lemma append_cons x (a b : string) : String x a +:+ b = String x (a +:+ b).
Proof. reflexivity. Qed.

Lemma append_assoc (a b c : string) : (a +:+ b) +:+ c = a +:+ b +:+ c.
Proof.
  induction a as [|x a IH]; [reflexivity|].
  rewrite !append_cons, IH. reflexivity.
Qed.

Lemma append_empty_r (a : string) : a +:+ "" = a.
Proof.
  induction a as [|x a IH]; [reflexivity|].
  rewrite append_cons, IH. reflexivity.
Qed.

Lemma truthy_app_r a b : Str.truthy b = true -> Str.truthy (a +:+ b) = true.
Proof. destruct a; simpl; auto. Qed.

Lemma truthy_app_l a b : Str.truthy a = true -> Str.truthy (a +:+ b) = true.
Proof. destruct a; simpl; [discriminate | reflexivity]. Qed.

Lemma take_app_length (a b : string) : Str.take (String.length a) (a +:+ b) = a.
Proof.
  induction a as [|x a IH]; [destruct b; reflexivity|].
  rewrite append_cons. cbn [String.length Str.take]. now rewrite IH.
Qed.

Lemma drop_app_length (a b : string) : Str.drop (String.length a) (a +:+ b) = b.
Proof.
  induction a as [|x a IH]; [reflexivity|].
  rewrite append_cons. cbn [String.length Str.drop]. exact IH.
Qed.

Lemma startswith_drop (p s : string) :
  Str.startswith p s = true -> p +:+ Str.drop (String.length p) s = s.
Proof.
  revert s. induction p as [|a p IH]; intros s H; [reflexivity|].
  destruct s as [|b s]; [discriminate|].
  cbn [Str.startswith] in H. apply andb_true_iff in H as [Hab H].
  apply eqc_true in Hab. subst b.
  rewrite append_cons. cbn [String.length Str.drop]. now rewrite IH.
Qed.

Lemma startswith_truthy p s :
  Str.truthy p = true -> Str.startswith p s = true -> Str.truthy s = true.
Proof. destruct p, s; simpl; intros; congruence. Qed.

Lemma mem_app c a b : Str.mem c (a +:+ b) = Str.mem c a || Str.mem c b.
Proof.
  induction a as [|x a IH]; simpl; [reflexivity|].
  rewrite IH. apply orb_assoc.
Qed.

(** Replacing a one-character [old] leaves no [old] behind, when [new] has none. *)
Lemma replace_char_gone c new s :
  Str.mem c new = false ->
  Str.mem c (Str.replace (String c EmptyString) new s) = false.
Proof.
  intros Hnew. unfold Str.replace.
  induction s as [|a s IH]; [reflexivity|].
  cbn [Str.replace_from Str.startswith String.length Nat.sub].
  destruct (Str.eqc c a) eqn:E; cbn [andb].
  - rewrite mem_app, Hnew, IH. reflexivity.
  - cbn [Str.mem]. rewrite IH, orb_false_r.
    destruct (Str.eqc a c) eqn:E'; [|reflexivity].
    apply eqc_true in E'. subst. rewrite eqc_refl in E. discriminate.
Qed.

(** ** Paths never come out empty *)

Lemma normpath_truthy p : Str.truthy (posixpath.normpath p) = true.
Proof.
  unfold posixpath.normpath.
  destruct (negb (Str.truthy p)); [reflexivity|].
  cbv zeta.
  destruct (Str.truthy (_ +:+ _)) eqn:E; [exact E | reflexivity].
Qed.

Lemma abspath_truthy cwd p : Str.truthy (posixpath.abspath cwd p) = true.
Proof. apply normpath_truthy. Qed.

Lemma join2_truthy a b : Str.truthy b = true -> Str.truthy (posixpath.join2 a b) = true.
Proof.
  intros Hb. unfold posixpath.join2.
  destruct (Str.startswith "/" b); [exact Hb|].
  destruct (negb (Str.truthy a) || Str.endswith_char Str.sep a).
  - apply truthy_app_r, Hb.
  - apply truthy_app_r, truthy_app_r, Hb.
Qed.

(** [relpath] raises on the empty path only. *)
Lemma relpath_ok cwd p start :
  Str.truthy p = true -> exists r, posixpath.relpath cwd p start = Ok r.
Proof.
  intros Hp. unfold posixpath.relpath. rewrite Hp. cbn [negb]. cbv zeta.
  destruct (_ ++ _); eauto.
Qed.

(** ** [get_url_path] *)

Section UrlPath.

Variable os : OS.

Lemma get_url_path_ok link path root webroot :
  exists rel,
    get_url_path os link path root webroot = Ok (web_url (posixpath.join2 webroot rel)).
Proof.
  unfold get_url_path.
  destruct (relpath_ok (getcwd os)
              (posixpath.abspath (getcwd os)
                 (posixpath.join2 path (Str.replace "file:///" "" link)))
              (posixpath.abspath (getcwd os) root)) as [rel Hrel].
  { apply abspath_truthy. }
  exists rel. rewrite Hrel. reflexivity.
Qed.

Lemma web_url_slash url : Str.startswith "/" (web_url url) = true.
Proof.
  unfold web_url. cbv zeta. unfold re.match_slash.
  destruct (Str.startswith "/" (Str.replace _ _ _)) eqn:E; cbn [negb];
    [exact E | reflexivity].
Qed.

Lemma web_url_no_backslash url : Str.mem Str.backslash (web_url url) = false.
Proof.
  unfold web_url. cbv zeta.
  assert (H : Str.mem Str.backslash
                (Str.replace (String Str.backslash EmptyString) "/" url) = false)
    by (apply replace_char_gone; reflexivity).
  destruct (negb (re.match_slash _)); [|exact H].
  change (Str.eqc "/"%char Str.backslash
          || Str.mem Str.backslash
               (Str.replace (String Str.backslash EmptyString) "/" url) = false).
  rewrite H. reflexivity.
Qed.

End UrlPath.

(** C6. In Web mode the URL that [get_url_path] returns, for any link,
    document path, site root and web base, starts with a slash and holds
    no backslash.  The two steps that make it so work on any joined path,
    whatever separator the host puts into it. *)
Theorem get_url_path_rooted_forward_slashes (os : OS) (link path root webroot : string) :
  (exists url,
     get_url_path os link path root webroot = Ok url
     /\ Str.startswith "/" url = true
     /\ Str.mem Str.backslash url = false)
  /\ (forall joined,
        Str.startswith "/" (web_url joined) = true
        /\ Str.mem Str.backslash (web_url joined) = false).
Proof.
  split.
  - destruct (get_url_path_ok os link path root webroot) as [rel H].
    exists (web_url (posixpath.join2 webroot rel)).
    split; [exact H|]. split; [apply web_url_slash | apply web_url_no_backslash].
  - intros joined. split; [apply web_url_slash | apply web_url_no_backslash].
Qed.



(** ** Components: [split] and [join] on the separator *)

Lemma split_nonempty c s : Str.split c s <> [].
Proof.
  destruct s as [|a s]; simpl; [discriminate|].
  destruct (Str.eqc a c); [discriminate|].
  destruct (Str.split c s); discriminate.
Qed.

Lemma split_app_sep a b :
  Str.split Str.sep (a +:+ String Str.sep b) = Str.split Str.sep a ++ Str.split Str.sep b.
Proof.
  induction a as [|x a IH].
  - rewrite append_nil. cbn [Str.split]. rewrite eqc_refl. reflexivity.
  - rewrite append_cons. cbn [Str.split]. destruct (Str.eqc x Str.sep).
    + rewrite IH. reflexivity.
    + rewrite IH.
      destruct (Str.split Str.sep a) as [|h t] eqn:E; [|reflexivity].
      now apply split_nonempty in E.
Qed.

Lemma split_slashfree s : slashfree s = true -> Str.split Str.sep s = [s].
Proof.
  unfold slashfree. induction s as [|a s IH]; [reflexivity|].
  cbn [Str.split Str.mem]. destruct (Str.eqc a Str.sep); cbn [orb negb]; [discriminate|].
  intros H. rewrite (IH H). reflexivity.
Qed.

Lemma split_all_slashfree s : Forall (fun c => slashfree c = true) (Str.split Str.sep s).
Proof.
  induction s as [|a s IH]; cbn [Str.split].
  - constructor; [reflexivity | constructor].
  - destruct (Str.eqc a Str.sep) eqn:E.
    + constructor; [reflexivity | exact IH].
    + destruct (Str.split Str.sep s) as [|h t]; [repeat constructor|].
      * unfold slashfree. cbn [Str.mem]. rewrite E. reflexivity.
      * inversion IH as [|? ? Hh Ht]; subst. constructor; [|exact Ht].
        unfold slashfree in *. cbn [Str.mem]. rewrite E. exact Hh.
Qed.

Lemma endswith_char_inv c s :
  Str.endswith_char c s = true -> exists s', s = s' +:+ String c EmptyString.
Proof.
  induction s as [|a s IH]; [discriminate|].
  cbn [Str.endswith_char]. destruct s as [|b s].
  - intros H. apply eqc_true in H. subst. exists EmptyString. reflexivity.
  - intros H. destruct (IH H) as [s' Hs']. exists (String a s').
    rewrite append_cons, <- Hs'. reflexivity.
Qed.

Lemma slashfree_not_abs s : slashfree s = true -> Str.startswith "/" s = false.
Proof.
  unfold slashfree. destruct s as [|a s]; [reflexivity|].
  change (Str.startswith "/" (String a s)) with (Str.eqc Str.sep a && true).
  cbn [Str.mem]. destruct (Str.eqc a Str.sep) eqn:E; cbn [orb negb]; [discriminate|].
  intros _. destruct (Str.eqc Str.sep a) eqn:E'; [|reflexivity].
  apply eqc_true in E'. subst. rewrite eqc_refl in E. discriminate.
Qed.

Lemma clean_slashfree c : clean c = true -> slashfree c = true.
Proof. unfold clean. intros H. now apply andb_true_iff in H as [_ H]. Qed.

Lemma clean_truthy c : clean c = true -> Str.truthy c = true.
Proof.
  unfold clean. intros H.
  apply andb_true_iff in H as [H _]. apply andb_true_iff in H as [H _].
  now apply andb_true_iff in H as [H _].
Qed.

Lemma split_join l :
  l <> [] -> Forall (fun c => slashfree c = true) l ->
  Str.split Str.sep (Str.join "/" l) = l.
Proof.
  induction l as [|a l IH]; [congruence|]. intros _ Hl.
  inversion Hl as [|? ? Ha Hl']; subst.
  destruct l as [|b l].
  - cbn [Str.join]. now apply split_slashfree.
  - change (Str.join "/" (a :: b :: l)) with (a +:+ String Str.sep (Str.join "/" (b :: l))).
    rewrite split_app_sep, (split_slashfree a Ha), IH; [reflexivity | discriminate | exact Hl'].
Qed.

(** ** The loop of [normpath] on an absolute path *)

Lemma norm_step_abs k st c : 0 < k -> posixpath.norm_step k st c = step st c.
Proof.
  intros Hk. unfold step, posixpath.norm_step.
  destruct k as [|k]; [lia|]. reflexivity.
Qed.

Lemma step_empty st : step st "" = st.
Proof. reflexivity. Qed.

Lemma step_dot st : step st "." = st.
Proof. reflexivity. Qed.

Lemma clean_inv c :
  clean c = true ->
  String.eqb c "" = false /\ String.eqb c "." = false /\ String.eqb c ".." = false
  /\ slashfree c = true.
Proof.
  unfold clean. intros H.
  apply andb_true_iff in H as [H H4]. apply andb_true_iff in H as [H H3].
  apply andb_true_iff in H as [H1 H2].
  apply negb_true_iff in H2, H3.
  repeat split; try assumption.
  destruct c; [discriminate | reflexivity].
Qed.

Lemma step_push st c : clean c = true -> step st c = c :: st.
Proof.
  intros H. apply clean_inv in H as (H1 & H2 & H3 & _).
  unfold step, posixpath.norm_step. rewrite H1, H2, H3. reflexivity.
Qed.

Lemma step_pop st : all_clean st -> step st ".." = tail st.
Proof.
  intros Hst. unfold step, posixpath.norm_step.
  cbn [String.eqb Ascii.eqb Bool.eqb orb negb andb Nat.eqb].
  destruct st as [|c st]; [reflexivity|].
  inversion Hst as [|? ? Hc _]; subst.
  apply clean_inv in Hc as (_ & _ & H3 & _). rewrite H3. reflexivity.
Qed.

Lemma not_special_clean c :
  String.eqb c "" = false -> String.eqb c "." = false -> String.eqb c ".." = false ->
  slashfree c = true -> clean c = true.
Proof.
  intros H1 H2 H3 H4. unfold clean. rewrite H2, H3, H4.
  destruct c; [discriminate | reflexivity].
Qed.

Lemma step_clean st c : slashfree c = true -> all_clean st -> all_clean (step st c).
Proof.
  intros Hc Hst.
  destruct (String.eqb c "") eqn:E1.
  { apply String.eqb_eq in E1. subst. exact Hst. }
  destruct (String.eqb c ".") eqn:E2.
  { apply String.eqb_eq in E2. subst. exact Hst. }
  destruct (String.eqb c "..") eqn:E3.
  { apply String.eqb_eq in E3. subst. rewrite step_pop by exact Hst.
    destruct st; [constructor|]. now inversion Hst. }
  assert (Hcl : clean c = true) by now apply not_special_clean.
  rewrite step_push by exact Hcl. now constructor.
Qed.

Lemma fold_clean l st :
  all_slashfree l -> all_clean st -> all_clean (fold_left step l st).
Proof.
  revert st. induction l as [|c l IH]; intros st Hl Hst; [exact Hst|].
  inversion Hl; subst. cbn [fold_left]. apply IH; [assumption|].
  now apply step_clean.
Qed.

Lemma fold_pops k st :
  all_clean st -> fold_left step (List.repeat ".." k) st = skipn k st.
Proof.
  revert st. induction k as [|k IH]; intros st Hst; [reflexivity|].
  cbn [List.repeat fold_left]. rewrite step_pop by exact Hst.
  destruct st as [|c st]; cbn [tail].
  - rewrite IH by constructor. now destruct k.
  - rewrite IH; [reflexivity | now inversion Hst].
Qed.

Lemma fold_pushes l st : all_clean l -> fold_left step l st = rev l ++ st.
Proof.
  revert st. induction l as [|c l IH]; intros st Hl; [reflexivity|].
  inversion Hl; subst. cbn [fold_left rev].
  rewrite step_push by assumption. rewrite IH by assumption.
  rewrite <- app_assoc. reflexivity.
Qed.

(** Joining and then splitting visits the components of both parts. *)
Lemma fold_join2 a b st :
  Str.startswith "/" b = false ->
  fold_left step (Str.split Str.sep (posixpath.join2 a b)) st
  = fold_left step (Str.split Str.sep b) (fold_left step (Str.split Str.sep a) st).
Proof.
  intros Hb. unfold posixpath.join2. rewrite Hb.
  destruct a as [|x a].
  - reflexivity.
  - cbn [Str.truthy negb orb].
    destruct (Str.endswith_char Str.sep (String x a)) eqn:E.
    + apply endswith_char_inv in E as [a' Ha']. rewrite Ha'.
      rewrite append_assoc, append_cons, append_nil.
      rewrite !split_app_sep, !fold_left_app. reflexivity.
    + change ("/" +:+ b) with (String Str.sep b).
      rewrite split_app_sep, fold_left_app. reflexivity.
Qed.

Lemma fold_join_from q c st :
  all_slashfree q ->
  fold_left step (Str.split Str.sep (fold_left posixpath.join2 q c)) st
  = fold_left step q (fold_left step (Str.split Str.sep c) st).
Proof.
  revert c st. induction q as [|d q IH]; intros c st Hq; [reflexivity|].
  inversion Hq as [|? ? Hd Hq']; subst.
  cbn [fold_left]. rewrite IH by exact Hq'.
  rewrite fold_join2 by now apply slashfree_not_abs.
  rewrite (split_slashfree d Hd). reflexivity.
Qed.

Lemma fold_join a p st :
  all_slashfree (a :: p) ->
  fold_left step (Str.split Str.sep (posixpath.join a p)) st = fold_left step (a :: p) st.
Proof.
  intros H. inversion H as [|? ? Ha Hp]; subst.
  unfold posixpath.join. rewrite fold_join_from by exact Hp.
  rewrite (split_slashfree a Ha). reflexivity.
Qed.

(** ** [abspath] and [relpath] through the components of an absolute path *)

Section Absolute.

Variable cwd : string.
Hypothesis cwd_abs : posixpath.isabs cwd = true.

Lemma startswith_app q a b :
  Str.startswith q a = true -> Str.startswith q (a +:+ b) = true.
Proof.
  revert a. induction q as [|x q IH]; intros a; [reflexivity|].
  destruct a as [|y a]; [discriminate|].
  rewrite append_cons. cbn [Str.startswith].
  intros H. apply andb_true_iff in H as [H1 H2].
  rewrite H1, (IH _ H2). reflexivity.
Qed.

Lemma absolute_isabs p : posixpath.isabs (absolute cwd p) = true.
Proof.
  unfold absolute. destruct (posixpath.isabs p) eqn:E; [exact E|].
  unfold posixpath.join2. unfold posixpath.isabs in E. rewrite E.
  unfold posixpath.isabs in *.
  destruct (negb (Str.truthy cwd) || Str.endswith_char Str.sep cwd);
    now apply startswith_app.
Qed.

Lemma stack_clean p : all_clean (stack cwd p).
Proof. apply fold_clean; [apply split_all_slashfree | constructor]. Qed.

Lemma fold_norm_step_abs k l st :
  0 < k -> fold_left (posixpath.norm_step k) l st = fold_left step l st.
Proof.
  intros Hk. revert st. induction l as [|c l IH]; intros st; [reflexivity|].
  cbn [fold_left]. rewrite norm_step_abs by exact Hk. apply IH.
Qed.

Lemma initial_slashes_abs A : posixpath.isabs A = true -> 0 < posixpath.initial_slashes A.
Proof.
  unfold posixpath.isabs, posixpath.initial_slashes. intros ->.
  destruct (_ && _); lia.
Qed.

Lemma repeat_sep_truthy k s : 0 < k -> Str.truthy (posixpath.repeat_sep k +:+ s) = true.
Proof. destruct k; [lia | reflexivity]. Qed.

Lemma normpath_abs A :
  posixpath.isabs A = true ->
  posixpath.normpath A
  = posixpath.repeat_sep (posixpath.initial_slashes A)
    +:+ Str.join "/" (rev (fold_left step (Str.split Str.sep A) [])).
Proof.
  intros HA. pose proof (initial_slashes_abs A HA) as Hk.
  unfold posixpath.normpath.
  assert (Ht : Str.truthy A = true).
  { unfold posixpath.isabs in HA. destruct A; [discriminate | reflexivity]. }
  rewrite Ht. cbn [negb]. cbv zeta.
  rewrite fold_norm_step_abs by exact Hk.
  rewrite repeat_sep_truthy by exact Hk. reflexivity.
Qed.

Lemma filter_truthy_clean l : all_clean l -> List.filter Str.truthy l = l.
Proof.
  induction 1 as [|c l Hc _ IH]; [reflexivity|].
  cbn [List.filter]. rewrite (clean_truthy c Hc), IH. reflexivity.
Qed.

Lemma all_clean_slashfree l : all_clean l -> all_slashfree l.
Proof.
  induction 1 as [|c l Hc _ IH]; constructor; [now apply clean_slashfree | exact IH].
Qed.

Lemma filter_split_render k comps :
  all_clean comps ->
  List.filter Str.truthy
    (Str.split Str.sep (posixpath.repeat_sep k +:+ Str.join "/" comps)) = comps.
Proof.
  intros Hc. induction k as [|k IH].
  - cbn [posixpath.repeat_sep]. rewrite append_nil.
    destruct comps as [|c comps]; [reflexivity|].
    rewrite split_join; [|discriminate | now apply all_clean_slashfree].
    now apply filter_truthy_clean.
  - cbn [posixpath.repeat_sep]. rewrite append_cons. cbn [Str.split].
    rewrite eqc_refl. cbn [List.filter Str.truthy]. exact IH.
Qed.

Lemma path_list_stack p : posixpath.path_list cwd p = rev (stack cwd p).
Proof.
  unfold posixpath.path_list, posixpath.abspath. fold (absolute cwd p).
  rewrite normpath_abs by apply absolute_isabs.
  apply filter_split_render. apply Forall_rev, stack_clean.
Qed.

Lemma isabs_join2 s r :
  Str.startswith "/" r = false ->
  Str.startswith "/" (posixpath.join2 s r) = Str.startswith "/" s.
Proof.
  intros Hr. unfold posixpath.join2. rewrite Hr.
  destruct s as [|x s]; [exact Hr|]. cbn [Str.truthy negb orb].
  destruct (Str.endswith_char Str.sep (String x s)); reflexivity.
Qed.

(** Appending a relative part continues the loop where it stopped. *)
Lemma stack_join2 s r :
  Str.startswith "/" r = false ->
  stack cwd (posixpath.join2 s r) = fold_left step (Str.split Str.sep r) (stack cwd s).
Proof.
  intros Hr. unfold stack, absolute, posixpath.isabs.
  pose proof (isabs_join2 s r Hr) as Hj.
  rewrite Hj. destruct (Str.startswith "/" s) eqn:Es.
  - now apply fold_join2.
  - rewrite fold_join2 by exact Hj.
    rewrite fold_join2 by exact Hr.
    rewrite (fold_join2 cwd s) by exact Es. reflexivity.
Qed.

End Absolute.

(** ** [relpath] leads from the start to the path *)

Section RelPath.

Variable cwd : string.
Hypothesis cwd_abs : posixpath.isabs cwd = true.

Lemma relpath_unfold x s :
  Str.truthy x = true ->
  posixpath.relpath cwd x s
  = Ok (rel_join (rel_list (posixpath.path_list cwd s) (posixpath.path_list cwd x))).
Proof.
  intros Hx. unfold posixpath.relpath. rewrite Hx. cbn [negb]. cbv zeta.
  fold (rel_list (posixpath.path_list cwd s) (posixpath.path_list cwd x)).
  destruct (rel_list _ _); reflexivity.
Qed.

Lemma commonprefix_firstn_l l1 l2 :
  firstn (List.length (posixpath.commonprefix l1 l2)) l1 = posixpath.commonprefix l1 l2.
Proof.
  revert l2. induction l1 as [|a l1 IH]; intros [|b l2]; try reflexivity.
  cbn [posixpath.commonprefix]. destruct (String.eqb a b); [|reflexivity].
  cbn [List.length firstn]. now rewrite IH.
Qed.

Lemma commonprefix_firstn_r l1 l2 :
  firstn (List.length (posixpath.commonprefix l1 l2)) l2 = posixpath.commonprefix l1 l2.
Proof.
  revert l2. induction l1 as [|a l1 IH]; intros [|b l2]; try reflexivity.
  cbn [posixpath.commonprefix]. destruct (String.eqb a b) eqn:E; [|reflexivity].
  apply String.eqb_eq in E. subst. cbn [List.length firstn]. now rewrite IH.
Qed.

Lemma commonprefix_length_le l1 l2 :
  List.length (posixpath.commonprefix l1 l2) <= List.length l1.
Proof.
  revert l2. induction l1 as [|a l1 IH]; intros [|b l2]; cbn; try lia.
  destruct (String.eqb a b); cbn; [|lia]. specialize (IH l2). lia.
Qed.

Lemma all_slashfree_rel_list ss xs :
  all_clean xs -> all_slashfree (rel_list ss xs).
Proof.
  intros Hx. unfold rel_list, all_slashfree. cbv zeta. apply Forall_app. split.
  - induction (List.length ss - _) as [|n IH]; constructor; [reflexivity | exact IH].
  - apply all_clean_slashfree. unfold all_clean.
    rewrite <- (firstn_skipn (List.length (posixpath.commonprefix ss xs)) xs) in Hx.
    now apply Forall_app in Hx as [_ Hx].
Qed.

(** Walking [rel_list] from the start ends at the path. *)
Lemma fold_rel_list ss xs :
  all_clean ss -> all_clean xs ->
  fold_left step (rel_list ss xs) (rev ss) = rev xs.
Proof.
  intros Hs Hx. unfold rel_list. cbv zeta.
  set (i := List.length (posixpath.commonprefix ss xs)).
  assert (Hi : i <= List.length ss) by apply commonprefix_length_le.
  rewrite fold_left_app.
  rewrite fold_pops by now apply Forall_rev.
  rewrite skipn_rev.
  replace (List.length ss - (List.length ss - i)) with i by lia.
  rewrite fold_pushes.
  - unfold i at 2. rewrite commonprefix_firstn_l, <- commonprefix_firstn_r.
    fold i. rewrite <- rev_app_distr, firstn_skipn. reflexivity.
  - unfold all_clean. rewrite <- (firstn_skipn i xs) in Hx.
    now apply Forall_app in Hx as [_ Hx].
Qed.

Lemma fold_rel_join rel st :
  all_slashfree rel ->
  fold_left step (Str.split Str.sep (rel_join rel)) st = fold_left step rel st.
Proof.
  intros H. destruct rel as [|a p]; [reflexivity|].
  cbn [rel_join]. now apply fold_join.
Qed.

Lemma isabs_join_from q c :
  all_slashfree q ->
  Str.startswith "/" (fold_left posixpath.join2 q c) = Str.startswith "/" c.
Proof.
  revert c. induction q as [|d q IH]; intros c Hq; [reflexivity|].
  inversion Hq as [|? ? Hd Hq']; subst. cbn [fold_left].
  rewrite IH by exact Hq'.
  apply (isabs_join2 c d). now apply slashfree_not_abs.
Qed.

Lemma join_not_abs a p :
  all_slashfree (a :: p) -> Str.startswith "/" (posixpath.join a p) = false.
Proof.
  intros H. inversion H as [|? ? Ha Hp]; subst.
  unfold posixpath.join. rewrite isabs_join_from by exact Hp.
  now apply slashfree_not_abs.
Qed.

Lemma rel_join_not_abs rel :
  all_slashfree rel -> Str.startswith "/" (rel_join rel) = false.
Proof.
  intros H. destruct rel as [|a p]; [reflexivity|]. now apply join_not_abs.
Qed.

(** The components of [start] joined with [relpath(path, start)] are those
    of [path]. *)
Lemma stack_relpath x s r :
  Str.truthy x = true ->
  posixpath.relpath cwd x s = Ok r ->
  Str.startswith "/" r = false
  /\ stack cwd (posixpath.join2 s r) = stack cwd x.
Proof.
  intros Hx Hr. rewrite relpath_unfold in Hr by exact Hx.
  injection Hr as <-.
  rewrite !(path_list_stack cwd cwd_abs).
  pose proof (stack_clean cwd s) as Hs. pose proof (stack_clean cwd x) as Hxs.
  assert (Hsf : all_slashfree (rel_list (rev (stack cwd s)) (rev (stack cwd x)))).
  { apply all_slashfree_rel_list. now apply Forall_rev. }
  split; [now apply rel_join_not_abs|].
  rewrite stack_join2 by now apply rel_join_not_abs.
  rewrite fold_rel_join by exact Hsf.
  rewrite <- (rev_involutive (stack cwd s)) at 2.
  rewrite fold_rel_list by now apply Forall_rev.
  apply rev_involutive.
Qed.

Lemma relpath_again x s r :
  Str.truthy x = true -> Str.truthy s = true ->
  posixpath.relpath cwd x s = Ok r ->
  posixpath.relpath cwd (posixpath.join2 s r) s = Ok r.
Proof.
  intros Hx Hs Hr.
  destruct (stack_relpath x s r Hx Hr) as [Hrel Hst].
  assert (Hj : Str.truthy (posixpath.join2 s r) = true).
  { unfold posixpath.join2. rewrite Hrel.
    destruct (negb (Str.truthy s) || Str.endswith_char Str.sep s);
      now apply truthy_app_l. }
  rewrite relpath_unfold by exact Hj.
  rewrite relpath_unfold in Hr by exact Hx.
  rewrite !(path_list_stack cwd cwd_abs) in *.
  rewrite Hst. exact Hr.
Qed.

End RelPath.

(** C8 as stated fails on the code.  With a start location the value
    that [_get_crumb] returns in Local mode is relative to that location,
    and resolving it again as it stands takes it from the working
    directory: [docs/a/a.md] gives [../a.md], and [../a.md] gives another
    value.  Without a start location the value is a slice of the path, and
    slicing it again cuts into the name. *)
Lemma local_resolve_not_idempotent :
  crumb_result (os_example []) "docs/a/a.md" "docs" 0 (Some "docs/a/b") true ""
  = Ok "../a.md"
  /\ crumb_result (os_example []) "../a.md" "docs" 0 (Some "docs/a/b") true ""
     = Ok "../../../../a.md"
  /\ crumb_result (os_example []) "docs/a/a.md" "docs" 0 None true "" = Ok "/a/a.md"
  /\ crumb_result (os_example []) "/a/a.md" "docs" 0 None true "" = Ok ".md".
Proof. repeat split; vm_compute; reflexivity. Qed.

(** C8, amended.  In Local mode with a start location, [_get_crumb]
    resolves a path [x] to [r = relpath(x, start)]: [r] is relative, and
    taken from [start] it is the location of [x].  Resolving that location
    again gives [r]: it is a fixed point.  Without a start location, a path
    of the first two candidates starts with the root and is resolved to the
    rest [r]; the root followed by [r] is the path, which resolves to [r]
    again. *)
Theorem local_resolve_fixed_point (os : OS) (x root webroot : string) :
  posixpath.isabs (getcwd os) = true ->
  Str.truthy x = true ->
  (forall (start : string) (off : nat),
     Str.truthy start = true ->
     exists r,
       crumb_result os x root off (Some start) true webroot = Ok r
       /\ Str.startswith "/" r = false
       /\ posixpath.path_list (getcwd os) (posixpath.join2 start r)
          = posixpath.path_list (getcwd os) x
       /\ crumb_result os (posixpath.join2 start r) root off (Some start) true webroot
          = Ok r)
  /\ (Str.startswith root x = true ->
      exists r,
        crumb_result os x root 0 None true webroot = Ok r
        /\ root +:+ r = x
        /\ crumb_result os (root +:+ r) root 0 None true webroot = Ok r).
Proof.
  intros Hcwd Hx. split.
  - intros start off Hs. unfold crumb_result. cbn [truthy_opt default]. rewrite Hs.
    destruct (relpath_ok (getcwd os) x start Hx) as [r Hr].
    destruct (stack_relpath (getcwd os) Hcwd x start r Hx Hr) as [Hrel Hst].
    exists r. split; [exact Hr|]. split; [exact Hrel|]. split.
    + rewrite !(path_list_stack _ Hcwd). now rewrite Hst.
    + exact (relpath_again (getcwd os) Hcwd x start r Hx Hs Hr).
  - intros Hroot. unfold crumb_result. cbn [truthy_opt]. rewrite Nat.add_0_r.
    exists (Str.drop (String.length root) x).
    split; [reflexivity|]. split; [now apply startswith_drop|].
    now rewrite drop_app_length.
Qed.

Lemma local_resolve_fixed_point_witness :
  (exists r,
     crumb_result (os_example []) "docs/a/a.md" "docs" 0 (Some "docs/a/b") true "" = Ok r
     /\ Str.startswith "/" r = false
     /\ posixpath.path_list (getcwd (os_example [])) (posixpath.join2 "docs/a/b" r)
        = posixpath.path_list (getcwd (os_example [])) "docs/a/a.md"
     /\ crumb_result (os_example []) (posixpath.join2 "docs/a/b" r) "docs" 0
          (Some "docs/a/b") true "" = Ok r)
  /\ (exists r,
        crumb_result (os_example []) "docs/a/a.md" "docs" 0 None true "" = Ok r
        /\ "docs" +:+ r = "docs/a/a.md"
        /\ crumb_result (os_example []) ("docs" +:+ r) "docs" 0 None true "" = Ok r).
Proof.
  destruct (local_resolve_fixed_point (os_example []) "docs/a/a.md" "docs" ""
              eq_refl eq_refl) as [Hstart Hroot].
  split; [apply (Hstart "docs/a/b" 0) | apply Hroot]; reflexivity.
Defined.

(** ** [_get_crumb] *)

Section GetCrumb.

Variable os : OS.

Lemma crumb_result_ok crumb_path root off start is_local webroot :
  Str.truthy crumb_path = true ->
  exists v, crumb_result os crumb_path root off start is_local webroot = Ok v.
Proof.
  intros Hc. unfold crumb_result.
  destruct is_local.
  - destruct (truthy_opt start); [now apply relpath_ok | eauto].
  - destruct (get_url_path_ok os crumb_path "" root webroot) as [rel H]. eauto.
Qed.

Lemma slashfree_app a b : slashfree (a +:+ b) = slashfree a && slashfree b.
Proof. unfold slashfree. rewrite mem_app. apply negb_orb. Qed.

Lemma length_append (a b : string) :
  String.length (a +:+ b) = String.length a + String.length b.
Proof.
  induction a as [|x a IH]; [reflexivity|].
  rewrite append_cons. cbn [String.length]. now rewrite IH.
Qed.

Lemma clean_file_base base : slashfree base = true -> clean (base +:+ ".md") = true.
Proof.
  intros Hb.
  assert (Hlen : forall s, String.length s < 3 -> String.eqb (base +:+ ".md") s = false).
  { intros s Hs. apply String.eqb_neq. intros H.
    apply (f_equal String.length) in H. rewrite length_append in H.
    cbn [String.length] in H. lia. }
  apply not_special_clean; try (apply Hlen; cbn; lia).
  rewrite slashfree_app, Hb. reflexivity.
Qed.

Hypothesis cwd_abs : posixpath.isabs (getcwd os) = true.

(** a file [f] directly inside the directory [d] *)
Lemma path_list_child d f :
  clean f = true ->
  posixpath.path_list (getcwd os) (posixpath.join2 d f)
  = posixpath.path_list (getcwd os) d ++ [f].
Proof.
  intros Hf. rewrite !(path_list_stack _ cwd_abs).
  rewrite stack_join2 by now apply slashfree_not_abs, clean_slashfree.
  rewrite split_slashfree by now apply clean_slashfree.
  cbn [fold_left]. rewrite step_push by exact Hf. reflexivity.
Qed.

(** the directory above [d] *)
Lemma path_list_pardir d :
  posixpath.path_list (getcwd os) (posixpath.join2 d posixpath.pardir)
  = removelast (posixpath.path_list (getcwd os) d).
Proof.
  rewrite !(path_list_stack _ cwd_abs).
  rewrite stack_join2 by reflexivity.
  change (Str.split Str.sep posixpath.pardir) with [".."].
  cbn [fold_left]. rewrite step_pop by apply stack_clean.
  destruct (stack (getcwd os) d) as [|c st]; [reflexivity|].
  cbn [tail rev]. now rewrite removelast_last.
Qed.

(** the third candidate, computed through [relpath] from the working
    directory, is the file [f] in the directory above [d] *)
Lemma path_list_parent_candidate d f parent :
  clean f = true ->
  posixpath.relpath (getcwd os) (posixpath.join2 d posixpath.pardir) posixpath.curdir
    = Ok parent ->
  posixpath.path_list (getcwd os) (posixpath.join "." [parent; f])
  = removelast (posixpath.path_list (getcwd os) d) ++ [f].
Proof.
  intros Hf Hp.
  change (posixpath.join "." [parent; f])
    with (posixpath.join2 (posixpath.join2 "." parent) f).
  rewrite path_list_child by exact Hf.
  rewrite <- path_list_pardir. f_equal.
  rewrite !(path_list_stack _ cwd_abs). f_equal.
  assert (Ht : Str.truthy (posixpath.join2 d posixpath.pardir) = true)
    by now apply join2_truthy.
  now destruct (stack_relpath (getcwd os) cwd_abs _ _ _ Ht Hp) as [_ Hst].
Qed.

End GetCrumb.

(** C1 on the code.  [slash_trim] takes a slash from both ends of the
    root, in [__init__] and in [_get_crumb]: with the absolute root
    [/srv/site/docs] the candidates are [srv/site/docs/a/a.md] and the like,
    looked for below the working directory.  The directory
    [/srv/site/docs/a] holds both [a.md] and [index.md], and the lookup
    returns [None], in Local and in Web mode; [get_breadcrumbs], called as
    the driver calls it, gives no crumb.  With the same files and the root
    given from the working directory as [docs], the file is found.
    In Local mode without a start location, the value returned for the
    third candidate [./docs/a.md] is cut after [len(root) + 1] characters
    and names no file. *)
Theorem get_crumb_absolute_root_misses_index :
  let files := ["/srv/site/docs/a/a.md"; "/srv/site/docs/a/index.md"] in
  let os := os_files "/home/user" files in
  path_exists os "/srv/site/docs/a/a.md" = true
  /\ path_exists os "/srv/site/docs/a/index.md" = true
  /\ _get_crumb os "a" "/srv/site/docs" (Some "a") (Some "/srv/site/docs/a") true ""
     = Ok None
  /\ _get_crumb os "a" "/srv/site/docs" (Some "a") (Some "/srv/site/docs/a") false ""
     = Ok None
  /\ get_breadcrumbs os "/srv/site/docs" "/a" (Some "/srv/site/docs/a") BREADCRUMB true ""
     = Ok []
  /\ _get_crumb (os_files "/srv/site" files) "a" "docs" (Some "a") (Some "docs/a") true ""
     = Ok (Some "a.md")
  /\ _get_crumb (os_files "/srv/site" ["/srv/site/docs/a.md"]) "a" "docs" (Some "a") None
       true ""
     = Ok (Some "s/a.md").
Proof. cbv zeta. repeat split; vm_compute; reflexivity. Qed.

(** ** [fix_links] and [fix_imgs] *)

Section FixLinks.

Variable os : OS.
Variable self : DocFragment.

Lemma resolved_ok link : exists v, resolved os self link = Ok v.
Proof.
  unfold resolved. destruct (negb (is_local self)); [|eauto].
  destruct (get_url_path_ok os link (doc_path self) (doc_root self) (webroot self))
    as [rel H]. eauto.
Qed.

Lemma fix_link_none flag link :
  href_read link = None -> fix_link os self flag link = Raise TypeError.
Proof.
  unfold href_read, fix_link. intros H.
  destruct (truthy_opt (get link "href")) eqn:E; cbn [negb]; rewrite H; reflexivity.
Qed.

Lemma fix_link_placeholder flag link h :
  href_read link = Some h -> re.match_placeholder h = true ->
  fix_link os self flag link
  = Ok (if truthy_opt (get link "href") then flag else true, link).
Proof.
  unfold href_read, fix_link. intros H Hp.
  destruct (truthy_opt (get link "href")) eqn:E; cbn [negb]; rewrite H, Hp; reflexivity.
Qed.

Lemma fix_link_rewrites flag link h v :
  href_read link = Some h -> re.match_placeholder h = false ->
  resolved os self h = Ok v ->
  let flag' := if truthy_opt (get link "href") then flag else true in
  fix_link os self flag link
  = Ok (flag', set link (if flag' then "xlink:href" else "href") (Some (re.sub_md v))).
Proof.
  unfold href_read, fix_link, resolved. intros H Hp Hv. cbv zeta.
  destruct (truthy_opt (get link "href")) eqn:E; cbn [negb]; rewrite H, Hp; cbn [negb];
    rewrite Hv; cbn [mbind result_bind]; [destruct flag|]; reflexivity.
Qed.

(** One anchor either goes through or raises [TypeError]. *)
Lemma fix_link_cases flag link :
  (exists r, fix_link os self flag link = Ok r)
  \/ fix_link os self flag link = Raise TypeError.
Proof.
  destruct (href_read link) as [h|] eqn:E.
  - left. destruct (re.match_placeholder h) eqn:Ep.
    + rewrite (fix_link_placeholder flag link h E Ep). eauto.
    + destruct (resolved_ok h) as [v Hv].
      rewrite (fix_link_rewrites flag link h v E Ep Hv). eauto.
  - right. now apply fix_link_none.
Qed.

Lemma fix_links_loop_bare tags tag :
  In tag tags -> selected "a" tag = true -> href_read tag = None ->
  forall flag, fix_links_loop os self flag tags = Raise TypeError.
Proof.
  intros Hin Ha Hbare.
  induction tags as [|t tags IH]; [destruct Hin|].
  intros flag. cbn [fix_links_loop].
  destruct Hin as [->|Hin].
  - rewrite Ha, (fix_link_none flag tag Hbare). reflexivity.
  - destruct (selected "a" t).
    + destruct (fix_link_cases flag t) as [[r Hr]|Hr]; rewrite Hr; [|reflexivity].
      cbn [mbind result_bind]. rewrite (IH Hin). reflexivity.
    + rewrite (IH Hin). reflexivity.
Qed.

End FixLinks.

(** C9. When the parsed fragment holds an anchor with neither an [href] nor
    an [xlink:href] attribute, [fix_links] raises (the pattern is matched
    against [None]) and does not skip the anchor; in the driver the handler
    of the file is reached. *)
Theorem fix_links_raises_on_bare_anchor (os : OS) (self : DocFragment) (tag : Tag) :
  In tag (soup self) ->
  name tag = "a" ->
  attrs tag !! "href" = None ->
  attrs tag !! "xlink:href" = None ->
  fix_links os self = Raise TypeError
  /\ convert_file os self = ErrorReported.
Proof.
  intros Hin Hname Hhref Hxlink.
  assert (H : fix_links os self = Raise TypeError).
  { unfold fix_links.
    rewrite (fix_links_loop_bare os self (soup self) tag Hin); [reflexivity | |].
    - unfold selected. rewrite Hname. reflexivity.
    - unfold href_read, get. rewrite Hhref, Hxlink. reflexivity. }
  split; [exact H|].
  unfold convert_file, fix_html. rewrite H. reflexivity.
Qed.

Lemma fix_links_raises_on_bare_anchor_witness :
  fix_links (os_example [])
    (doc_example false [anchor [("href", Some "b.md")]; anchor [("id", Some "top")]])
  = Raise TypeError
  /\ convert_file (os_example [])
       (doc_example false [anchor [("href", Some "b.md")]; anchor [("id", Some "top")]])
     = ErrorReported.
Proof.
  apply (fix_links_raises_on_bare_anchor (os_example [])
           (doc_example false [anchor [("href", Some "b.md")]; anchor [("id", Some "top")]])
           (anchor [("id", Some "top")])).
  - right. left. reflexivity.
  - reflexivity.
  - vm_compute. reflexivity.
  - vm_compute. reflexivity.
Defined.

(** C2 on the code.  The flag [is_xlink] is set once, before the loop, and
    never reset: after an anchor read from [xlink:href], the value of a
    later anchor read from [href] is written to [xlink:href], and its
    [href] keeps the old value. *)
Theorem fix_links_xlink_flag_not_reset :
  soup <$> fix_links (os_example [])
             (doc_example true [anchor [("xlink:href", Some "icon.md")];
                                anchor [("href", Some "guide.md")]])
  = Ok [anchor [("xlink:href", Some "icon.html")];
        anchor [("href", Some "guide.md"); ("xlink:href", Some "guide.html")]].
Proof. vm_compute. reflexivity. Qed.

(** ** The rewrite of [.md] *)

Lemma sub_md_cons a s :
  re.sub_md (String a s)
  = if md_here (String a s)
    then ".html" +:+ re.sub_md (Str.drop 2 s)
    else String a (re.sub_md s).
Proof.
  unfold md_here. destruct s as [|b [|c s]]; cbn [re.sub_md Str.startswith Str.drop].
  - destruct (Str.eqc "." a); reflexivity.
  - destruct (Str.eqc "." a), (Str.eqc "m" b); reflexivity.
  - replace (Str.eqc "." a) with (Str.eqc a ".")
      by (unfold Str.eqc; apply Ascii.eqb_sym).
    replace (Str.eqc "m" b) with (Str.eqc b "m")
      by (unfold Str.eqc; apply Ascii.eqb_sym).
    replace (Str.eqc "d" c) with (Str.eqc c "d")
      by (unfold Str.eqc; apply Ascii.eqb_sym).
    destruct (Str.eqc a "."), (Str.eqc b "m"), (Str.eqc c "d"); reflexivity.
Qed.

Lemma startswith_md_inv s :
  Str.startswith ".md" s = true -> exists s', s = ".md" +:+ s'.
Proof.
  destruct s as [|a [|b [|c s]]]; cbn [Str.startswith]; intros H;
    try (rewrite ?andb_false_r in H; discriminate).
  apply andb_true_iff in H as [H1 H]. apply andb_true_iff in H as [H2 H].
  apply andb_true_iff in H as [H3 _].
  apply eqc_true in H1, H2, H3. subst. exists s. reflexivity.
Qed.

(** *** The rewrite, match by match *)

Lemma md_here_md q : md_here (".md" +:+ q) = re.boundary q.
Proof. reflexivity. Qed.

Lemma md_at_length p q : md_at (p +:+ ".md" +:+ q) (String.length p) = re.boundary q.
Proof. unfold md_at. rewrite drop_app_length. apply md_here_md. Qed.

Lemma md_rewritten_cons a s w :
  md_here (String a s) = false -> md_rewritten s w ->
  md_rewritten (String a s) (String a w).
Proof.
  intros Ha H. destruct H as [v Hnone | p q w Hun Hq Hw].
  - apply md_rewritten_none. intros [|i]; [exact Ha | apply Hnone].
  - rewrite <- !append_cons.
    apply md_rewritten_first; [|exact Hq|exact Hw].
    intros [|i] Hi; rewrite append_cons; [exact Ha|].
    cbn [String.length] in Hi.
    change (md_at (p +:+ ".md" +:+ q) i = false). apply Hun. lia.
Qed.

Lemma sub_md_rewritten_upto n :
  forall v, String.length v <= n -> md_rewritten v (re.sub_md v).
Proof.
  induction n as [|n IH]; intros v Hlen.
  - destruct v; [|cbn in Hlen; lia]. apply md_rewritten_none. intros [|i]; reflexivity.
  - destruct v as [|a s]; [apply md_rewritten_none; intros [|i]; reflexivity|].
    cbn [String.length] in Hlen.
    rewrite sub_md_cons. destruct (md_here (String a s)) eqn:E.
    + pose proof E as E'. unfold md_here in E'. apply andb_true_iff in E' as [E1 E2].
      apply startswith_md_inv in E1 as [q Hq].
      change (".md" +:+ q) with (String "." (String "m" (String "d" q))) in Hq.
      injection Hq as -> ->. cbn [Str.drop] in *.
      change (md_rewritten ("" +:+ ".md" +:+ q) ("" +:+ ".html" +:+ re.sub_md q)).
      apply md_rewritten_first; [intros i Hi; cbn in Hi; lia | exact E2 |].
      apply IH. cbn [String.length] in Hlen. lia.
    + apply md_rewritten_cons; [exact E | apply IH; lia].
Qed.

Lemma sub_md_rewritten v : md_rewritten v (re.sub_md v).
Proof. apply (sub_md_rewritten_upto (String.length v)). lia. Qed.

Lemma app_inv_length (p p' s s' : string) :
  String.length p = String.length p' -> p +:+ s = p' +:+ s' -> p = p' /\ s = s'.
Proof.
  revert p'. induction p as [|a p IH]; intros [|a' p'] Hlen H; try discriminate.
  - rewrite !append_nil in H. auto.
  - rewrite !append_cons in H. injection H as -> H.
    cbn [String.length] in Hlen.
    destruct (IH p') as [-> ->]; [lia | exact H | auto].
Qed.

(** The description fixes the result. *)
Lemma md_rewritten_unique v u :
  md_rewritten v u -> forall u', md_rewritten v u' -> u = u'.
Proof.
  induction 1 as [v Hnone | p q w Hun Hq Hw IH]; intros u' H'.
  - inversion H' as [v' Hnone' | p' q' w' Hun' Hq' Hw' Hv]; [reflexivity|].
    exfalso. specialize (Hnone (String.length p')).
    rewrite <- Hv, md_at_length, Hq' in Hnone. discriminate.
  - inversion H' as [v' Hnone' Hv | p' q' w' Hun' Hq' Hw' Hv].
    + exfalso. specialize (Hnone' (String.length p)).
      rewrite md_at_length, Hq in Hnone'. discriminate.
    + destruct (lt_eq_lt_dec (String.length p) (String.length p')) as [[Hlt|Heq]|Hgt].
      * exfalso. specialize (Hun' _ Hlt).
        rewrite Hv, md_at_length, Hq in Hun'. discriminate.
      * apply app_inv_length in Hv as [-> Hv]; [|lia].
        apply (app_inv_length ".md" ".md") in Hv as [_ ->]; [|reflexivity].
        f_equal. f_equal. now apply IH.
      * exfalso. specialize (Hun _ Hgt).
        rewrite <- Hv, md_at_length, Hq' in Hun. discriminate.
Qed.

(** no [.md] in [p]: no match starts inside [p], whatever follows a [.md]
    after it *)
Lemma no_md_before p q :
  has_md p = false ->
  forall i, i < String.length p -> md_at (p +:+ ".md" +:+ q) i = false.
Proof.
  induction p as [|a p IH]; intros H i Hi; [cbn in Hi; lia|].
  cbn [has_md] in H. apply orb_false_iff in H as [H0 Hp].
  destruct i as [|i].
  - unfold md_at, md_here. cbn [Str.drop].
    destruct (Str.startswith ".md" (String a p +:+ ".md" +:+ q)) eqn:E; [|reflexivity].
    exfalso. destruct p as [|b [|c p]].
    + apply startswith_md_inv in E as [s' Hs'].
      rewrite !append_cons, !append_nil in Hs'. discriminate.
    + apply startswith_md_inv in E as [s' Hs'].
      rewrite !append_cons, !append_nil in Hs'. discriminate.
    + rewrite !append_cons in E. cbn [Str.startswith] in E, H0.
      rewrite E in H0. discriminate.
  - rewrite append_cons. cbn [String.length] in Hi.
    change (md_at (p +:+ ".md" +:+ q) i = false). apply IH; [exact Hp | lia].
Qed.

(** C3 as stated fails on the code.  [fix_imgs] resolves the [src] of an
    image and writes it back with no rewrite of [.md], in Local mode and in
    Web mode.  On anchors, an href that does not end in [.md] is rewritten
    where [.md] stands before a character that is not a word character,
    and an href that matches the brace placeholder pattern is left alone
    even when it ends in [.md]. *)
Lemma fix_html_md_rewrite_differs :
  soup <$> fix_html (os_example []) (doc_example true [img [("src", Some "chart.md")]])
  = Ok [img [("src", Some "chart.md")]]
  /\ soup <$> fix_html (os_example []) (doc_example false [img [("src", Some "chart.md")]])
     = Ok [img [("src", Some "/site/a/chart.md")]]
  /\ soup <$> fix_html (os_example [])
               (doc_example true [anchor [("href", Some "notes.md.bak")];
                                  anchor [("href", Some "{base}.md")]])
     = Ok [anchor [("href", Some "notes.html.bak")];
           anchor [("href", Some "{base}.md")]].
Proof. repeat split; vm_compute; reflexivity. Qed.

(** C3, amended.  For an anchor whose href is present and is not a brace
    placeholder, and whose resolved value [v] is made of ASCII characters,
    [fix_links] writes to [href] or to [xlink:href] the value [v] in which
    every [.md] followed by the end of the value or by a character that is
    no letter, digit or underscore has become [.html], and nothing else has
    changed.  So a value without such a [.md] is written as resolved, and
    a value with one such [.md], at the end or before a fragment or a
    query, has [.html] there and is otherwise the same.  For an image,
    [fix_imgs] writes the resolved [src] and rewrites no extension. *)
Theorem md_rewrite_on_anchor_href_only (os : OS) (self : DocFragment) (flag : bool)
    (link image : Tag) (h v src : string) :
  href_read link = Some h ->
  re.match_placeholder h = false ->
  resolved os self h = Ok v ->
  Str.is_ascii v = true ->
  get image "src" = Some src ->
  exists (v' w : string) (flag' : bool) (key : string),
    fix_link os self flag link = Ok (flag', set link key (Some v'))
    /\ (key = "href" \/ key = "xlink:href")
    /\ md_rewritten v v'
    /\ (forall u, md_rewritten v u -> u = v')
    /\ ((forall i, md_at v i = false) -> v' = v)
    /\ (forall p q, v = p +:+ ".md" +:+ q -> has_md p = false ->
        re.boundary q = true -> (forall i, md_at q i = false) ->
        v' = p +:+ ".html" +:+ q)
    /\ resolved os self src = Ok w
    /\ fix_img os self image = Ok (set image "src" (Some w)).
Proof.
  intros Hh Hp Hv _ Hsrc.
  destruct (resolved_ok os self src) as [w Hw].
  pose proof (fix_link_rewrites os self flag link h v Hh Hp Hv) as Hfix. cbv zeta in Hfix.
  assert (Huniq : forall u, md_rewritten v u -> u = re.sub_md v).
  { intros u Hu. exact (md_rewritten_unique v u Hu _ (sub_md_rewritten v)). }
  exists (re.sub_md v), w. eexists. eexists.
  split; [exact Hfix|]. split.
  { destruct (if truthy_opt (get link "href") then flag else true); auto. }
  split; [apply sub_md_rewritten|]. split; [exact Huniq|]. split.
  { intros Hnone. symmetry. apply Huniq. now apply md_rewritten_none. }
  split.
  { intros p q -> Hnp Hq Hnq. symmetry. apply Huniq.
    apply md_rewritten_first; [now apply no_md_before | exact Hq |].
    now apply md_rewritten_none. }
  split; [exact Hw|].
  unfold fix_img. rewrite Hsrc. unfold resolved in Hw.
  destruct (negb (is_local self)).
  - rewrite Hw. reflexivity.
  - injection Hw as <-. reflexivity.
Qed.

Lemma md_rewrite_on_anchor_href_only_witness :
  exists (v' w : string) (flag' : bool) (key : string),
    fix_link (os_example []) (doc_example false []) false
      (anchor [("href", Some "guide.md#top")])
    = Ok (flag', set (anchor [("href", Some "guide.md#top")]) key (Some v'))
    /\ (key = "href" \/ key = "xlink:href")
    /\ md_rewritten "/site/a/guide.md#top" v'
    /\ (forall u, md_rewritten "/site/a/guide.md#top" u -> u = v')
    /\ ((forall i, md_at "/site/a/guide.md#top" i = false) -> v' = "/site/a/guide.md#top")
    /\ (forall p q, "/site/a/guide.md#top" = p +:+ ".md" +:+ q -> has_md p = false ->
        re.boundary q = true -> (forall i, md_at q i = false) ->
        v' = p +:+ ".html" +:+ q)
    /\ resolved (os_example []) (doc_example false []) "chart.md" = Ok w
    /\ fix_img (os_example []) (doc_example false []) (img [("src", Some "chart.md")])
       = Ok (set (img [("src", Some "chart.md")]) "src" (Some w)).
Proof.
  apply (md_rewrite_on_anchor_href_only (os_example []) (doc_example false []) false
           (anchor [("href", Some "guide.md#top")]) (img [("src", Some "chart.md")])
           "guide.md#top" "/site/a/guide.md#top" "chart.md").
  - vm_compute. reflexivity.
  - reflexivity.
  - vm_compute. reflexivity.
  - reflexivity.
  - vm_compute. reflexivity.
Defined.

(** ** [Breadcrumb] and [get_breadcrumbs] *)

Section Breadcrumbs.

Variable os : OS.
Variables (root : string) (start_path : option string) (is_local : bool) (webroot : string).

Lemma get_crumb_ok path rt base :
  exists located, _get_crumb os path rt base start_path is_local webroot = Ok located.
Proof.
  unfold _get_crumb. cbv zeta.
  set (D := posixpath.join2 (slash_trim rt) (slash_trim path)).
  set (fb := match base with Some b => b | None => posixpath.basename D end +:+ ".md").
  assert (Hfb : Str.truthy fb = true) by (apply truthy_app_r; reflexivity).
  destruct (path_exists os (posixpath.join2 D fb)).
  { destruct (crumb_result_ok os (posixpath.join2 D fb) (slash_trim rt) 0
                start_path is_local webroot) as [v Hv]; [now apply join2_truthy|].
    rewrite Hv. eexists. reflexivity. }
  destruct (path_exists os (posixpath.join2 D "index.md")).
  { destruct (crumb_result_ok os (posixpath.join2 D "index.md") (slash_trim rt) 0
                start_path is_local webroot) as [v Hv]; [now apply join2_truthy|].
    rewrite Hv. eexists. reflexivity. }
  destruct (relpath_ok (getcwd os) (posixpath.join2 D posixpath.pardir) posixpath.curdir)
    as [parent Hparent]; [now apply join2_truthy|].
  rewrite Hparent. cbn [mbind result_bind].
  destruct (path_exists os (posixpath.join "." [parent; fb])).
  { destruct (crumb_result_ok os (posixpath.join "." [parent; fb]) (slash_trim rt) 1
                start_path is_local webroot) as [v Hv]; [now apply join2_truthy|].
    rewrite Hv. eexists. reflexivity. }
  eexists. reflexivity.
Qed.

Lemma index_of_ok path : exists located, index_of os root start_path is_local webroot path = Ok located.
Proof. apply get_crumb_ok. Qed.

Lemma Breadcrumb_init_missing path text template :
  index_of os root start_path is_local webroot path = Ok None ->
  Breadcrumb_init os root path text template start_path is_local webroot
  = Ok Breadcrumb_default.
Proof.
  unfold index_of, crumb_base, Breadcrumb_init. cbv zeta.
  intros H. rewrite H. reflexivity.
Qed.

Lemma Breadcrumb_init_located path text template crumb_path :
  index_of os root start_path is_local webroot path = Ok (Some crumb_path) ->
  Breadcrumb_init os root path text template start_path is_local webroot
  = (html ← str_format template (Str.drop_last3 (slash_trim crumb_path) +:+ ".html")
              (crumb_text root path text);
     Ok {| path := Some (slash_trim path);
           md_file := Some (slash_trim crumb_path);
           html_file := Some (Str.drop_last3 (slash_trim crumb_path) +:+ ".html");
           text := crumb_text root path text;
           html := html |}).
Proof.
  unfold index_of, crumb_base, crumb_text, Breadcrumb_init. cbv zeta.
  intros H. rewrite H. reflexivity.
Qed.

Lemma exists_iff (b : Breadcrumb) : exists_ b = true <-> html b <> "".
Proof.
  unfold exists_. destruct (html b); cbn; split; intros H; congruence.
Qed.

Lemma exists_truthy (b : Breadcrumb) : exists_ b = Str.truthy (html b).
Proof. unfold exists_. destruct (html b); reflexivity. Qed.

(** the components of a target path always give a directory to each level *)
Lemma crumb_dir_ok comps i : comps <> [] -> exists d, crumb_dir comps i = Ok d.
Proof.
  intros H. unfold crumb_dir. destruct i as [|i]; cbn [Nat.eqb]; [eauto|].
  destruct comps as [|a p]; [congruence|]. cbn [firstn join_star]. eauto.
Qed.

End Breadcrumbs.

Section BreadcrumbLoop.

Variable os : OS.
Variables (root : string) (start_path : option string) (is_local : bool) (webroot : string).
Variable template : string.
Variable comps : list string.
Hypothesis comps_nonempty : comps <> [].

(** With the empty template every level is built and none is kept. *)
Lemma crumbs_loop_empty_template levels :
  template = "" ->
  crumbs_loop os root comps start_path template is_local webroot levels [] = Ok [].
Proof.
  intros ->. induction levels as [|i levels IH]; [reflexivity|].
  cbn [crumbs_loop].
  destruct (crumb_dir_ok comps i comps_nonempty) as [dir Hdir]. rewrite Hdir.
  cbn [mbind result_bind].
  destruct (index_of_ok os root start_path is_local webroot dir) as [[cp|] Hloc].
  - rewrite (Breadcrumb_init_located _ _ _ _ _ _ _ _ _ Hloc). cbn. exact IH.
  - rewrite (Breadcrumb_init_missing _ _ _ _ _ _ _ _ Hloc). cbn. exact IH.
Qed.

Hypothesis template_renders :
  forall href text, exists html,
    str_format template href text = Ok html /\ Str.truthy html = true.

(** With a template that renders to something, a level is kept exactly when
    its index resolved. *)
Lemma crumbs_loop_keeps_resolved levels :
  exists candidates,
    Forall2 (candidate os root start_path is_local webroot template comps) levels candidates
    /\ forall crumbs,
         crumbs_loop os root comps start_path template is_local webroot levels crumbs
         = Ok (crumbs ++ List.filter has_index candidates).
Proof.
  induction levels as [|i levels IH].
  - exists []. split; [constructor|]. intros crumbs. cbn. now rewrite app_nil_r.
  - destruct IH as (cands & Hcands & Hloop).
    destruct (crumb_dir_ok comps i comps_nonempty) as [dir Hdir].
    destruct (index_of_ok os root start_path is_local webroot dir) as [[cp|] Hloc].
    + pose proof (Breadcrumb_init_located os root start_path is_local webroot
                    dir "" template cp Hloc) as Hinit.
      destruct (template_renders (Str.drop_last3 (slash_trim cp) +:+ ".html")
                  (crumb_text root dir "")) as (h & Hh & Hth).
      rewrite Hh in Hinit. cbn [mbind result_bind] in Hinit.
      eexists (_ :: cands). split.
      * constructor; [|exact Hcands]. exists dir, (Some cp).
        split; [exact Hdir|]. split; [exact Hloc|]. split; [exact Hinit|]. reflexivity.
      * intros crumbs. cbn [crumbs_loop]. rewrite Hdir. cbn [mbind result_bind].
        rewrite Hinit. cbn [mbind result_bind].
        rewrite exists_truthy. cbn [html]. rewrite Hth.
        rewrite Hloop. cbn [List.filter has_index md_file].
        rewrite <- app_assoc. reflexivity.
    + pose proof (Breadcrumb_init_missing os root start_path is_local webroot
                    dir "" template Hloc) as Hinit.
      exists (Breadcrumb_default :: cands). split.
      * constructor; [|exact Hcands]. exists dir, None.
        split; [exact Hdir|]. split; [exact Hloc|]. split; [exact Hinit|]. reflexivity.
      * intros crumbs. cbn [crumbs_loop]. rewrite Hdir. cbn [mbind result_bind].
        rewrite Hinit. cbn. apply Hloop.
Qed.

End BreadcrumbLoop.

(** C4 on the code.  For the root itself as the target (the empty relative
    path) [get_breadcrumbs] returns its one candidate without asking
    [exists()]: when the root has no index, the sequence holds a crumb with
    no index and no html. *)
Theorem get_breadcrumbs_root_without_index :
  index_of (os_example ["docs/a/a.md"]) "docs/" (Some "docs/") true "" "" = Ok None
  /\ get_breadcrumbs (os_example ["docs/a/a.md"]) "docs/" "" (Some "docs/") BREADCRUMB true ""
     = Ok [Breadcrumb_default]
  /\ md_file Breadcrumb_default = None
  /\ exists_ Breadcrumb_default = false.
Proof. repeat split; vm_compute; reflexivity. Qed.

(** C10. [exists()] is true exactly when the rendered html is not empty.
    With the empty template every crumb has empty html, so [exists()] is
    false also when the index of its directory was found, and for a target
    other than the root [get_breadcrumbs] returns no crumb at all. *)
Theorem empty_template_crumbs_are_dropped (os : OS) (root path : string)
    (start_path : option string) (is_local : bool) (webroot : string) :
  Str.truthy (Str.concat (Str.split Str.sep (slash_trim path))) = true ->
  (forall b : Breadcrumb, exists_ b = true <-> html b <> "")
  /\ (forall dir text, exists located b,
        index_of os root start_path is_local webroot dir = Ok located
        /\ Breadcrumb_init os root dir text "" start_path is_local webroot = Ok b
        /\ md_file b = slash_trim <$> located
        /\ exists_ b = false)
  /\ get_breadcrumbs os root path start_path "" is_local webroot = Ok [].
Proof.
  intros Hpath. split; [apply exists_iff|]. split.
  - intros dir text.
    destruct (index_of_ok os root start_path is_local webroot dir) as [[cp|] Hloc].
    + eexists. eexists. split; [exact Hloc|]. split.
      * rewrite (Breadcrumb_init_located _ _ _ _ _ _ _ _ _ Hloc). reflexivity.
      * split; reflexivity.
    + eexists. eexists. split; [exact Hloc|]. split.
      * apply (Breadcrumb_init_missing _ _ _ _ _ _ _ _ Hloc).
      * split; reflexivity.
  - unfold get_breadcrumbs. cbv zeta. rewrite Hpath.
    apply crumbs_loop_empty_template; [apply split_nonempty | reflexivity].
Qed.

Lemma empty_template_crumbs_are_dropped_witness :
  (forall b : Breadcrumb, exists_ b = true <-> html b <> "")
  /\ (forall dir text, exists located b,
        index_of (os_example ["docs/a/a.md"]) "docs" (Some "docs/a") true "" dir = Ok located
        /\ Breadcrumb_init (os_example ["docs/a/a.md"]) "docs" dir text ""
             (Some "docs/a") true "" = Ok b
        /\ md_file b = slash_trim <$> located
        /\ exists_ b = false)
  /\ get_breadcrumbs (os_example ["docs/a/a.md"]) "docs" "/a" (Some "docs/a") "" true ""
     = Ok [].
Proof.
  apply (empty_template_crumbs_are_dropped (os_example ["docs/a/a.md"]) "docs" "/a"
           (Some "docs/a") true "").
  reflexivity.
Defined.

(** C5 as stated fails on the code: with the empty template the level [a]
    has its index resolved and still is not in the returned sequence. *)
Lemma get_breadcrumbs_drops_resolved_level :
  index_of (os_example ["docs/a/a.md"]) "docs" (Some "docs/a") true "" "a"
  = Ok (Some "a.md")
  /\ get_breadcrumbs (os_example ["docs/a/a.md"]) "docs" "/a" (Some "docs/a") "" true ""
     = Ok [].
Proof. split; vm_compute; reflexivity. Qed.

(** C5, amended.  For a target other than the root and a template that
    renders to a non-empty string, [get_breadcrumbs] builds one candidate
    for every level from the root (0) to the full path, each from its own
    index lookup, and returns, in that order, exactly the candidates whose
    index resolved: a level without index adds nothing and stops nothing. *)
Theorem get_breadcrumbs_resolved_levels (os : OS) (root path : string)
    (start_path : option string) (template : string) (is_local : bool) (webroot : string) :
  let comps := Str.split Str.sep (slash_trim path) in
  Str.truthy (Str.concat comps) = true ->
  (forall href text, exists html,
      str_format template href text = Ok html /\ Str.truthy html = true) ->
  exists candidates,
    Forall2 (candidate os root start_path is_local webroot template comps)
      (seq 0 (List.length comps + 1)) candidates
    /\ get_breadcrumbs os root path start_path template is_local webroot
       = Ok (List.filter has_index candidates).
Proof.
  intros comps Hpath Htemplate.
  destruct (crumbs_loop_keeps_resolved os root start_path is_local webroot template comps
              (split_nonempty _ _) Htemplate (seq 0 (List.length comps + 1)))
    as (cands & Hcands & Hloop).
  exists cands. split; [exact Hcands|].
  unfold get_breadcrumbs. cbv zeta. fold comps. rewrite Hpath.
  apply (Hloop []).
Qed.

Lemma get_breadcrumbs_resolved_levels_witness :
  let os := os_example ["docs/a/a.md"; "docs/a/b/c/index.md"] in
  let comps := Str.split Str.sep (slash_trim "/a/b/c") in
  exists candidates,
    Forall2 (candidate os "docs" (Some "docs/a/b/c") true "" BREADCRUMB comps)
      (seq 0 (List.length comps + 1)) candidates
    /\ get_breadcrumbs os "docs" "/a/b/c" (Some "docs/a/b/c") BREADCRUMB true ""
       = Ok (List.filter has_index candidates).
Proof.
  apply (get_breadcrumbs_resolved_levels
           (os_example ["docs/a/a.md"; "docs/a/b/c/index.md"])
           "docs" "/a/b/c" (Some "docs/a/b/c") BREADCRUMB true "").
  - reflexivity.
  - intros href text. eexists. split; [vm_compute; reflexivity | reflexivity].
Defined.


(** * Further properties of the code *)

(** ** [slash_trim] *)

Lemma sub_final_slash_app_slash p : re.sub_final_slash (p +:+ "/") = p.
Proof.
  induction p as [|a p IH].
  - reflexivity.
  - rewrite append_cons. cbn [re.sub_final_slash].
    assert (H1 : String.eqb (p +:+ "/") "" = false).
    { apply String.eqb_neq. intros H. apply (f_equal String.length) in H.
      rewrite length_append in H. cbn in H. lia. }
    assert (H2 : String.eqb (p +:+ "/") (String Str.newline "") = false).
    { apply String.eqb_neq. destruct p as [|b p]; [discriminate|].
      intros H. apply (f_equal String.length) in H.
      rewrite length_append in H. cbn in H. lia. }
    rewrite H1, H2, andb_false_r, IH. reflexivity.
Qed.

(** X1. [slash_trim] takes one slash from each end and no more: around any
    string [p], also one that has slashes at its own ends, it gives [p]
    back. *)
Theorem slash_trim_strips_one_slash_each_end (p : string) :
  slash_trim ("/" +:+ p +:+ "/") = p.
Proof.
  unfold slash_trim.
  change ("/" +:+ p +:+ "/") with (String Str.sep (p +:+ "/")).
  cbn [re.sub_slash_ends]. rewrite eqc_refl. apply sub_final_slash_app_slash.
Qed.

Lemma sub_final_slash_keeps s :
  without_slashes (re.sub_final_slash s) = without_slashes s
  /\ String.length s <= S (String.length (re.sub_final_slash s))
  /\ String.length (re.sub_final_slash s) <= String.length s.
Proof.
  induction s as [|a s (IH1 & IH2 & IH3)]; [cbn; repeat split; lia|].
  cbn [re.sub_final_slash].
  destruct (Str.eqc a Str.sep) eqn:Ea; cbn [andb].
  - destruct (String.eqb s "" || String.eqb s (String Str.newline "")) eqn:E.
    + cbn [without_slashes String.length]. rewrite Ea. repeat split; lia.
    + cbn [without_slashes String.length]. rewrite Ea, IH1. repeat split; lia.
  - cbn [without_slashes String.length]. rewrite Ea, IH1. repeat split; lia.
Qed.

(** X2. [slash_trim] removes nothing but separators, and at most two of
    them: the other characters stay, in their order. *)
Theorem slash_trim_removes_only_slashes (s : string) :
  without_slashes (slash_trim s) = without_slashes s
  /\ String.length s <= 2 + String.length (slash_trim s)
  /\ String.length (slash_trim s) <= String.length s.
Proof.
  unfold slash_trim. destruct s as [|a s]; [cbn; repeat split; lia|].
  cbn [re.sub_slash_ends].
  destruct (Str.eqc a Str.sep) eqn:Ea.
  - destruct (sub_final_slash_keeps s) as (H1 & H2 & H3).
    cbn [without_slashes String.length]. rewrite Ea, H1. repeat split; lia.
  - destruct (sub_final_slash_keeps (String a s)) as (H1 & H2 & H3).
    rewrite H1. repeat split; lia.
Qed.

Lemma sub_final_slash_id s :
  Str.endswith_char Str.sep s = false -> Str.mem Str.newline s = false ->
  re.sub_final_slash s = s.
Proof.
  induction s as [|a s IH]; [reflexivity|].
  intros He Hn. cbn [Str.mem] in Hn. apply orb_false_iff in Hn as [_ Hn].
  cbn [re.sub_final_slash]. destruct s as [|b s].
  - cbn [Str.endswith_char] in He. rewrite He. reflexivity.
  - assert (H1 : String.eqb (String b s) "" = false) by reflexivity.
    assert (H2 : String.eqb (String b s) (String Str.newline "") = false).
    { apply String.eqb_neq. intros H. injection H as Hb Hs. subst.
      cbn [Str.mem] in Hn. rewrite eqc_refl in Hn. discriminate. }
    rewrite H1, H2, andb_false_r. rewrite IH; [reflexivity | exact He | exact Hn].
Qed.

Lemma slash_trim_id (s : string) :
  Str.startswith "/" s = false ->
  Str.endswith_char Str.sep s = false ->
  Str.mem Str.newline s = false ->
  slash_trim s = s.
Proof.
  intros Hs He Hn. unfold slash_trim. destruct s as [|a s]; [reflexivity|].
  cbn [re.sub_slash_ends].
  change (Str.startswith "/" (String a s)) with (Str.eqc Str.sep a && true) in Hs.
  rewrite andb_true_r in Hs.
  replace (Str.eqc a Str.sep) with (Str.eqc Str.sep a)
    by (unfold Str.eqc; apply Ascii.eqb_sym).
  rewrite Hs. now apply sub_final_slash_id.
Qed.

(** X3. A string with no slash at either end (and no newline) is left as it
    is by [slash_trim]. *)
Theorem slash_trim_fixed (s : string) :
  Str.startswith "/" s = false ->
  Str.endswith_char Str.sep s = false ->
  Str.mem Str.newline s = false ->
  slash_trim s = s.
Proof. apply slash_trim_id. Qed.

Lemma slash_trim_fixed_witness :
  slash_trim "docs/a/notes.md" = "docs/a/notes.md".
Proof. apply (slash_trim_fixed "docs/a/notes.md"); reflexivity. Defined.

(** ** The walk of the driver *)

Lemma length_concat_repeat piece n :
  String.length (Str.times piece n) = n * String.length piece.
Proof.
  unfold Str.times, Str.concat. induction n as [|n IH]; [reflexivity|].
  cbn [List.repeat fold_right]. rewrite length_append, IH. lia.
Qed.

(** X4. Whatever the number of directories walked so far, the counter
    stays below 20 and the progress line printed for it is ten characters
    wide: spaces, then as many dots as the counter is away from 0 or from
    20, then spaces. *)
Theorem progress_line_width (prog : nat) :
  let p := next_prog prog in
  p < 20
  /\ String.length (progress_line p) = 10
  /\ progress_line p
     = Str.times " " (p - 10) +:+ Str.times "." (Nat.min p (20 - p))
       +:+ Str.times " " (10 - p).
Proof.
  intros p.
  assert (H : p < 20) by (unfold p, next_prog; apply Nat.mod_upper_bound; lia).
  split; [exact H|]. split.
  - unfold progress_line. rewrite !length_append, !length_concat_repeat.
    cbn [String.length]. destruct (p <=? 10) eqn:E.
    + apply Nat.leb_le in E. lia.
    + apply Nat.leb_gt in E. lia.
  - unfold progress_line. destruct (p <=? 10) eqn:E.
    + apply Nat.leb_le in E.
      replace (p - 10) with 0 by lia. replace (Nat.min p (20 - p)) with p by lia.
      reflexivity.
    + apply Nat.leb_gt in E.
      replace (10 - p) with 0 by lia. replace (Nat.min p (20 - p)) with (20 - p) by lia.
      reflexivity.
Qed.

(** X5. The walk leaves out every directory whose path starts, as a
    string, with the output path: the output directory, what lies below
    it, and also a sibling whose name only begins like it. *)
Theorem walk_skips_output_prefix (root dirout suffix : string) :
  walked root dirout (base_out root dirout +:+ suffix) = false.
Proof.
  unfold walked. rewrite take_app_length, String.eqb_refl. reflexivity.
Qed.



(** ** Names of output files and page titles *)

Lemma rfind_none c s : Str.mem c s = false -> Str.rfind c s = None.
Proof.
  induction s as [|a s IH]; [reflexivity|].
  cbn [Str.mem Str.rfind]. intros H. apply orb_false_iff in H as [Ha Hs].
  rewrite (IH Hs), Ha. reflexivity.
Qed.

Lemma rfind_last c stem e :
  Str.mem c e = false ->
  Str.rfind c (stem +:+ String c e) = Some (String.length stem).
Proof.
  intros He. induction stem as [|a stem IH].
  - rewrite append_nil. cbn [Str.rfind]. rewrite (rfind_none c e He), eqc_refl. reflexivity.
  - rewrite append_cons. cbn [Str.rfind]. rewrite IH. reflexivity.
Qed.

Lemma slashfree_mem s : slashfree s = true -> Str.mem Str.sep s = false.
Proof. unfold slashfree. now intros H%negb_true_iff. Qed.

Lemma basename_slashfree_id p : slashfree p = true -> posixpath.basename p = p.
Proof. intros H. unfold posixpath.basename. now rewrite split_slashfree. Qed.

(** A name with a stem and one extension splits into the two. *)
Lemma splitext_stem_ext stem e :
  slashfree stem = true -> has_non_dot stem = true ->
  slashfree e = true -> Str.mem "."%char e = false ->
  posixpath.splitext (stem +:+ String "."%char e) = (stem, String "."%char e).
Proof.
  intros Hs Hd He Hdot. unfold posixpath.splitext. cbv zeta.
  rewrite (rfind_last "."%char stem e Hdot).
  rewrite rfind_none.
  2:{ rewrite mem_app. rewrite (slashfree_mem stem Hs). cbn [Str.mem orb].
      rewrite (slashfree_mem e He). reflexivity. }
  cbn [Nat.leb andb Str.drop]. rewrite Nat.sub_0_r.
  rewrite take_app_length, drop_app_length.
  unfold has_non_dot in Hd. rewrite Hd. reflexivity.
Qed.

Lemma last_n_app (a b : string) : Str.last_n (String.length b) (a +:+ b) = b.
Proof.
  unfold Str.last_n. rewrite length_append.
  replace (String.length a + String.length b - String.length b)
    with (String.length a) by lia.
  apply drop_app_length.
Qed.

(** X7. [write_file] writes the page of [stem.md] to [stem.html] in the
    output directory, for every stem that is a file name with some
    character other than a dot. *)
Theorem file_path_out_md (path_out stem : string) :
  slashfree stem = true ->
  has_non_dot stem = true ->
  file_path_out path_out (stem +:+ ".md") = posixpath.join2 path_out (stem +:+ ".html").
Proof.
  intros Hs Hd. unfold file_path_out.
  pose proof (last_n_app stem ".md") as HL. cbn [String.length] in HL.
  rewrite HL. cbn [String.eqb Ascii.eqb Bool.eqb].
  rewrite basename_slashfree_id.
  2:{ rewrite slashfree_app, Hs. reflexivity. }
  change (stem +:+ ".md") with (stem +:+ String "."%char "md").
  rewrite splitext_stem_ext by (assumption || reflexivity). reflexivity.
Qed.

Lemma file_path_out_md_witness :
  file_path_out "build/guide" ("intro.v2" +:+ ".md")
  = posixpath.join2 "build/guide" ("intro.v2" +:+ ".html").
Proof. apply (file_path_out_md "build/guide" "intro.v2"); reflexivity. Defined.

Lemma times_dot_facts n :
  String.length (Str.times "." n) = n
  /\ Str.mem Str.sep (Str.times "." n) = false
  /\ has_non_dot (Str.times "." n) = false.
Proof.
  unfold Str.times, Str.concat, has_non_dot.
  induction n as [|n (IH1 & IH2 & IH3)]; [repeat split|].
  cbn [List.repeat fold_right].
  change ("." +:+ ?x) with (String "."%char x).
  cbn [String.length Str.mem list_ascii_of_string existsb].
  rewrite IH1, IH2, IH3. repeat split.
Qed.

(** X8. A file whose name is [.md] alone, or dots and then [.md], has no
    extension for [splitext]: [write_file] keeps the whole name and writes
    to [.md.html]. *)
Theorem file_path_out_dots_only (path_out : string) (n : nat) :
  file_path_out path_out (Str.times "." n +:+ ".md")
  = posixpath.join2 path_out (Str.times "." n +:+ ".md" +:+ ".html").
Proof.
  destruct (times_dot_facts n) as (Hlen & Hsep & Hdots).
  unfold file_path_out.
  pose proof (last_n_app (Str.times "." n) ".md") as HL. cbn [String.length] in HL.
  rewrite HL. cbn [String.eqb Ascii.eqb Bool.eqb].
  rewrite basename_slashfree_id.
  2:{ rewrite slashfree_app. unfold slashfree at 1. rewrite Hsep. reflexivity. }
  rewrite <- append_assoc. f_equal. f_equal.
  unfold posixpath.splitext. cbv zeta.
  change (Str.times "." n +:+ ".md") with (Str.times "." n +:+ String "."%char "md").
  rewrite (rfind_last "."%char (Str.times "." n) "md" eq_refl).
  rewrite rfind_none.
  2:{ rewrite mem_app, Hsep. reflexivity. }
  cbn [Nat.leb andb Str.drop]. rewrite Nat.sub_0_r, take_app_length.
  unfold has_non_dot in Hdots. rewrite Hdots. reflexivity.
Qed.

(** X9. With no top-level heading and no default title, the title of a
    page is the name of its file without the extension. *)
Theorem find_title_falls_back_to_stem (stem e : string) :
  slashfree stem = true ->
  has_non_dot stem = true ->
  slashfree e = true ->
  Str.mem "."%char e = false ->
  find_title None None (Some (stem +:+ String "."%char e)) = Ok stem.
Proof.
  intros Hs Hd He Hdot. unfold find_title.
  rewrite basename_slashfree_id.
  2:{ rewrite slashfree_app, Hs. unfold slashfree. cbn [Str.mem].
      rewrite (slashfree_mem e He). reflexivity. }
  rewrite splitext_stem_ext by assumption. reflexivity.
Qed.

Lemma find_title_falls_back_to_stem_witness :
  find_title None None (Some ("release-notes" +:+ String "."%char "md"))
  = Ok "release-notes".
Proof. apply (find_title_falls_back_to_stem "release-notes" "md"); reflexivity. Defined.

(** ** More on [get_url_path] *)

Lemma startswith_self_app (p s : string) : Str.startswith p (p +:+ s) = true.
Proof.
  induction p as [|a p IH]; [reflexivity|].
  rewrite append_cons. cbn [Str.startswith]. rewrite eqc_refl, IH. reflexivity.
Qed.

Lemma replace_from_skip old new (q s : string) :
  Str.replace_from old new (String.length q) (q +:+ s) = Str.replace_from old new 0 s.
Proof.
  induction q as [|a q IH]; [reflexivity|].
  rewrite append_cons. cbn [String.length Str.replace_from]. exact IH.
Qed.

Lemma replace_prefix (a : ascii) (old' new s : string) :
  Str.replace (String a old') new (String a old' +:+ s) = new +:+ Str.replace (String a old') new s.
Proof.
  unfold Str.replace.
  pose proof (startswith_self_app (String a old') s) as Hs.
  rewrite append_cons in *. cbn [Str.replace_from]. rewrite Hs.
  change (String.length (String a old') - 1) with (String.length old' - 0).
  rewrite Nat.sub_0_r. now rewrite replace_from_skip.
Qed.

(** X10. A link written as a [file:///] URI is resolved like the path after
    that prefix. *)
Theorem get_url_path_ignores_file_scheme (os : OS) (link path root webroot : string) :
  get_url_path os ("file:///" +:+ link) path root webroot
  = get_url_path os link path root webroot.
Proof.
  unfold get_url_path.
  change "file:///" with (String "f"%char "ile:///") at 1 3.
  rewrite replace_prefix. reflexivity.
Qed.

(** X11. For a link that starts with a slash the directory of the document
    plays no part: the URL is the same from every document. *)
Theorem get_url_path_absolute_link (os : OS) (link path path' root webroot : string) :
  Str.startswith "/" link = true ->
  get_url_path os link path root webroot = get_url_path os link path' root webroot.
Proof.
  intros H. destruct link as [|a link]; [discriminate|].
  unfold get_url_path.
  assert (Hr : Str.startswith "/" (Str.replace "file:///" "" (String a link)) = true).
  { cbn [Str.startswith] in H. apply andb_true_iff in H as [Ha _].
    apply eqc_true in Ha. subst a. reflexivity. }
  unfold posixpath.join2. rewrite Hr. reflexivity.
Qed.

Lemma get_url_path_absolute_link_witness :
  get_url_path (os_example []) "/srv/site/docs/img/logo.png" "docs/a" "docs" "site"
  = get_url_path (os_example []) "/srv/site/docs/img/logo.png" "docs/b/c" "docs" "site".
Proof.
  apply (get_url_path_absolute_link (os_example []) "/srv/site/docs/img/logo.png").
  reflexivity.
Defined.

Section UrlComponents.

Variable os : OS.
Hypothesis cwd_abs : posixpath.isabs (getcwd os) = true.

Lemma fold_leading_slashes k s st :
  fold_left step (Str.split Str.sep (posixpath.repeat_sep k +:+ s)) st
  = fold_left step (Str.split Str.sep s) st.
Proof.
  induction k as [|k IH]; [reflexivity|].
  cbn [posixpath.repeat_sep]. rewrite append_cons. cbn [Str.split].
  rewrite eqc_refl. cbn [fold_left]. rewrite step_empty. exact IH.
Qed.

Lemma fold_split_join comps :
  all_clean comps ->
  fold_left step (Str.split Str.sep (Str.join "/" comps)) [] = rev comps.
Proof.
  intros H. destruct comps as [|c comps]; [reflexivity|].
  rewrite split_join; [|discriminate | now apply all_clean_slashfree].
  rewrite fold_pushes by exact H. now rewrite app_nil_r.
Qed.

(** [abspath] of an [abspath] has the same components. *)
Lemma path_list_abspath p :
  posixpath.path_list (getcwd os) (posixpath.abspath (getcwd os) p)
  = posixpath.path_list (getcwd os) p.
Proof.
  rewrite !(path_list_stack _ cwd_abs). f_equal.
  unfold posixpath.abspath. fold (absolute (getcwd os) p).
  pose proof (absolute_isabs (getcwd os) cwd_abs p) as Habs.
  rewrite normpath_abs by exact Habs.
  pose proof (initial_slashes_abs _ Habs) as Hk.
  fold (stack (getcwd os) p).
  unfold stack at 1, absolute at 1.
  assert (Hq : posixpath.isabs
                 (posixpath.repeat_sep (posixpath.initial_slashes (absolute (getcwd os) p))
                  +:+ Str.join "/" (rev (stack (getcwd os) p))) = true).
  { destruct (posixpath.initial_slashes (absolute (getcwd os) p)); [lia | reflexivity]. }
  rewrite Hq, fold_leading_slashes, fold_split_join.
  - apply rev_involutive.
  - apply Forall_rev, stack_clean.
Qed.

(** [get_url_path] sees the link and the root through their components. *)
Lemma get_url_path_components link path root webroot :
  get_url_path os link path root webroot
  = Ok (web_url (posixpath.join2 webroot
           (rel_join (rel_list (posixpath.path_list (getcwd os) root)
                        (posixpath.path_list (getcwd os)
                           (posixpath.join2 path (Str.replace "file:///" "" link))))))).
Proof.
  unfold get_url_path.
  rewrite relpath_unfold by apply abspath_truthy.
  rewrite !path_list_abspath. reflexivity.
Qed.

Lemma path_list_trailing_slash root :
  Str.truthy root = true ->
  posixpath.path_list (getcwd os) (root +:+ "/") = posixpath.path_list (getcwd os) root.
Proof.
  intros Hroot. rewrite !(path_list_stack _ cwd_abs). f_equal.
  assert (Habs : posixpath.isabs (root +:+ "/") = posixpath.isabs root).
  { destruct root; [discriminate | reflexivity]. }
  unfold stack, absolute. rewrite Habs.
  change (root +:+ "/") with (root +:+ String Str.sep "").
  destruct (posixpath.isabs root) eqn:E.
  - rewrite split_app_sep, fold_left_app. reflexivity.
  - unfold posixpath.isabs in *.
    rewrite !fold_join2; [|exact E|].
    + rewrite split_app_sep, fold_left_app. reflexivity.
    + exact Habs.
Qed.

End UrlComponents.

(** X12. The site root may be written with or without a slash at its end:
    the URLs are the same. *)
Theorem get_url_path_root_trailing_slash (os : OS) (link path root webroot : string) :
  posixpath.isabs (getcwd os) = true ->
  Str.truthy root = true ->
  get_url_path os link path (root +:+ "/") webroot
  = get_url_path os link path root webroot.
Proof.
  intros Hcwd Hroot.
  rewrite !(get_url_path_components os Hcwd).
  rewrite (path_list_trailing_slash os Hcwd root Hroot). reflexivity.
Qed.

Lemma get_url_path_root_trailing_slash_witness :
  get_url_path (os_example []) "../b/notes.md" "docs/a" ("docs" +:+ "/") "site"
  = get_url_path (os_example []) "../b/notes.md" "docs/a" "docs" "site".
Proof.
  apply (get_url_path_root_trailing_slash (os_example []) "../b/notes.md" "docs/a" "docs" "site");
    reflexivity.
Defined.

Lemma endswith_char_app c (a b : string) :
  Str.truthy b = true -> Str.endswith_char c (a +:+ b) = Str.endswith_char c b.
Proof.
  intros Hb. induction a as [|x a IH]; [reflexivity|].
  rewrite append_cons. cbn [Str.endswith_char].
  destruct (a +:+ b) eqn:E; [|exact IH].
  destruct a; [rewrite append_nil in E; subst; discriminate | discriminate].
Qed.

Lemma slashfree_no_final_slash b : slashfree b = true -> Str.endswith_char Str.sep b = false.
Proof.
  unfold slashfree. induction b as [|x b IH]; [reflexivity|].
  cbn [Str.mem Str.endswith_char]. intros H. apply negb_true_iff in H.
  apply orb_false_iff in H as [Hx Hb].
  destruct b; [exact Hx|]. apply IH. now rewrite Hb.
Qed.

(** On clean components [os.path.join] puts one separator between two. *)
Lemma posix_join_clean p :
  all_clean p ->
  forall a, Str.truthy a = true -> Str.endswith_char Str.sep a = false ->
  posixpath.join a p = Str.join "/" (a :: p).
Proof.
  unfold posixpath.join.
  induction 1 as [|b p Hb Hp IH]; intros a Ha He; [reflexivity|].
  cbn [fold_left].
  assert (Hj : posixpath.join2 a b = a +:+ "/" +:+ b).
  { unfold posixpath.join2.
    rewrite (slashfree_not_abs b (clean_slashfree b Hb)), Ha, He. reflexivity. }
  rewrite Hj, IH.
  - destruct p as [|c p].
    + reflexivity.
    + cbn [Str.join]. now rewrite !append_assoc.
  - now apply truthy_app_l.
  - rewrite endswith_char_app by (apply truthy_app_r, (clean_truthy b Hb)).
    rewrite endswith_char_app by apply (clean_truthy b Hb).
    apply slashfree_no_final_slash, clean_slashfree, Hb.
Qed.

Lemma commonprefix_app l rel : posixpath.commonprefix l (l ++ rel) = l.
Proof.
  induction l as [|a l IH]; [now destruct rel|].
  cbn [posixpath.commonprefix app]. rewrite String.eqb_refl, IH. reflexivity.
Qed.

Lemma rel_list_below l rel : rel_list l (l ++ rel) = rel.
Proof.
  unfold rel_list. cbv zeta. rewrite commonprefix_app, Nat.sub_diag.
  cbn [List.repeat app]. rewrite skipn_app, skipn_all, Nat.sub_diag. reflexivity.
Qed.


(** X13. A link that leads to a place below the site root gets as its URL
    the web base joined with the components below the root, one slash
    between two, made web-like by the last two steps of [get_url_path]. *)
Theorem get_url_path_below_root (os : OS) (link path root webroot : string)
    (rel : list string) :
  posixpath.isabs (getcwd os) = true ->
  rel <> [] ->
  posixpath.path_list (getcwd os) (posixpath.join2 path (Str.replace "file:///" "" link))
  = posixpath.path_list (getcwd os) root ++ rel ->
  get_url_path os link path root webroot
  = Ok (web_url (posixpath.join2 webroot (Str.join "/" rel))).
Proof.
  intros Hcwd Hrel Hlist.
  rewrite (get_url_path_components os Hcwd), Hlist, rel_list_below.
  assert (Hclean : all_clean rel).
  { pose proof (stack_clean (getcwd os)
                  (posixpath.join2 path (Str.replace "file:///" "" link))) as Hs.
    apply Forall_rev in Hs. rewrite <- (path_list_stack _ Hcwd) in Hs.
    rewrite Hlist in Hs. unfold all_clean in Hs.
    now apply Forall_app in Hs as [_ Hs]. }
  destruct rel as [|a p]; [congruence|].
  inversion Hclean as [|? ? Ha Hp]; subst.
  cbn [rel_join]. rewrite posix_join_clean; [reflexivity | exact Hp | |].
  - now apply clean_truthy.
  - now apply slashfree_no_final_slash, clean_slashfree.
Qed.

Lemma get_url_path_below_root_witness :
  get_url_path (os_example []) "../b/notes.md#top" "docs/a" "docs" "site"
  = Ok (web_url (posixpath.join2 "site" (Str.join "/" ["b"; "notes.md#top"]))).
Proof.
  apply (get_url_path_below_root (os_example []) "../b/notes.md#top" "docs/a" "docs" "site"
           ["b"; "notes.md#top"]).
  - reflexivity.
  - discriminate.
  - vm_compute. reflexivity.
Defined.

(** ** More on crumbs *)





Section LoopInvariant.

Variable os : OS.
Variables (root : string) (start_path : option string) (is_local : bool) (webroot : string).
Variable template : string.

Lemma Breadcrumb_init_kept path text c :
  Breadcrumb_init os root path text template start_path is_local webroot = Ok c ->
  exists_ c = true -> kept c.
Proof.
  intros Hinit Hex.
  destruct (index_of_ok os root start_path is_local webroot path) as [[cp|] Hloc].
  - rewrite (Breadcrumb_init_located _ _ _ _ _ _ _ _ _ Hloc) in Hinit.
    destruct (str_format template _ _) as [h|e]; cbn [mbind result_bind] in Hinit;
      [|discriminate].
    injection Hinit as <-. repeat split; eauto.
  - rewrite (Breadcrumb_init_missing _ _ _ _ _ _ _ _ Hloc) in Hinit.
    injection Hinit as <-. discriminate.
Qed.

Lemma crumbs_loop_kept comps levels :
  forall crumbs l,
    Forall kept crumbs ->
    crumbs_loop os root comps start_path template is_local webroot levels crumbs = Ok l ->
    Forall kept l /\ List.length l <= List.length crumbs + List.length levels.
Proof.
  induction levels as [|i levels IH]; intros crumbs l Hc Hl.
  - cbn in Hl. injection Hl as <-. split; [exact Hc | lia].
  - cbn [crumbs_loop] in Hl.
    destruct (crumb_dir comps i) as [dir|e]; cbn [mbind result_bind] in Hl; [|discriminate].
    destruct (Breadcrumb_init os root dir "" template start_path is_local webroot)
      as [c|e] eqn:Hinit; cbn [mbind result_bind] in Hl; [|discriminate].
    destruct (exists_ c) eqn:Hex.
    + apply IH in Hl as [H1 H2].
      * split; [exact H1|]. rewrite length_app in H2. cbn [List.length] in *. lia.
      * apply Forall_app. split; [exact Hc|].
        constructor; [|constructor]. now apply (Breadcrumb_init_kept dir "").
    + apply IH in Hl as [H1 H2]; [|exact Hc]. split; [exact H1|].
      cbn [List.length]. lia.
Qed.

End LoopInvariant.

(** X15. For a target other than the root, every crumb of the sequence that
    [get_breadcrumbs] returns has html, a resolved index, a path and an
    html file; and there are at most as many crumbs as levels, the number
    of components and one. *)
Theorem get_breadcrumbs_keeps_resolved_only (os : OS) (root target : string)
    (start_path : option string) (template : string) (is_local : bool)
    (webroot : string) (l : list Breadcrumb) :
  Str.truthy (Str.concat (Str.split Str.sep (slash_trim target))) = true ->
  get_breadcrumbs os root target start_path template is_local webroot = Ok l ->
  Forall kept l
  /\ List.length l <= List.length (Str.split Str.sep (slash_trim target)) + 1.
Proof.
  intros Htarget Hl. unfold get_breadcrumbs in Hl. cbv zeta in Hl.
  rewrite Htarget in Hl.
  apply crumbs_loop_kept in Hl as [H1 H2]; [|constructor].
  split; [exact H1|]. rewrite length_seq in H2. cbn [List.length] in H2. lia.
Qed.

Lemma get_breadcrumbs_keeps_resolved_only_witness :
  Forall kept
    [ {| path := Some "a"; md_file := Some "../a.md"; html_file := Some "../a.html";
         text := "A"; html := "<../a.html|A>" |} ]
  /\ List.length
       [ {| path := Some "a"; md_file := Some "../a.md"; html_file := Some "../a.html";
            text := "A"; html := "<../a.html|A>" |} ]
     <= List.length (Str.split Str.sep (slash_trim "/a/b")) + 1.
Proof.
  apply (get_breadcrumbs_keeps_resolved_only
           (os_example ["docs/a/a.md"]) "docs" "/a/b" (Some "docs/a/b")
           "<{href}|{text}>" true "").
  - reflexivity.
  - vm_compute. reflexivity.
Defined.

Lemma sub_final_slash_repeat_sep k :
  re.sub_final_slash (posixpath.repeat_sep (S k)) = posixpath.repeat_sep k.
Proof.
  induction k as [|k IH]; [reflexivity|].
  change (posixpath.repeat_sep (S (S k)))
    with (String Str.sep (posixpath.repeat_sep (S k))).
  cbn [re.sub_final_slash]. rewrite eqc_refl.
  change (posixpath.repeat_sep (S k)) with (String Str.sep (posixpath.repeat_sep k)) at 1 2.
  cbn [String.eqb andb orb].
  change (Ascii.eqb Str.sep Str.newline) with false. cbv iota.
  rewrite IH. reflexivity.
Qed.

Lemma concat_split_repeat_sep k :
  Str.concat (Str.split Str.sep (posixpath.repeat_sep k)) = "".
Proof.
  induction k as [|k IH]; [reflexivity|].
  cbn [posixpath.repeat_sep Str.split]. rewrite eqc_refl.
  unfold Str.concat in *. cbn [fold_right]. exact IH.
Qed.

Lemma slash_trim_repeat_sep k :
  exists m, slash_trim (posixpath.repeat_sep k) = posixpath.repeat_sep m.
Proof.
  destruct k as [|[|k]].
  - exists 0. reflexivity.
  - exists 0. reflexivity.
  - exists k. unfold slash_trim.
    change (posixpath.repeat_sep (S (S k)))
      with (String Str.sep (posixpath.repeat_sep (S k))).
    cbn [re.sub_slash_ends]. rewrite eqc_refl. apply sub_final_slash_repeat_sep.
Qed.

(** X16. A target path made of separators only, of any number, is the root
    for [get_breadcrumbs]: the result is that for the empty path, the one
    crumb of the root, kept without the test of [exists()]. *)
Theorem get_breadcrumbs_separators_only (os : OS) (root : string)
    (start_path : option string) (template : string) (is_local : bool)
    (webroot : string) (k : nat) :
  get_breadcrumbs os root (posixpath.repeat_sep k) start_path template is_local webroot
  = get_breadcrumbs os root "" start_path template is_local webroot
  /\ get_breadcrumbs os root "" start_path template is_local webroot
     = (fun crumb => [crumb])
       <$> Breadcrumb_init os root "" "" template start_path is_local webroot.
Proof.
  assert (H0 : get_breadcrumbs os root "" start_path template is_local webroot
               = (fun crumb => [crumb])
                 <$> Breadcrumb_init os root "" "" template start_path is_local webroot).
  { unfold get_breadcrumbs. cbn [slash_trim re.sub_slash_ends Str.split Str.concat
                                   fold_right Str.truthy].
    destruct (Breadcrumb_init os root "" "" template start_path is_local webroot);
      reflexivity. }
  split; [|exact H0]. rewrite H0.
  unfold get_breadcrumbs. cbv zeta.
  destruct (slash_trim_repeat_sep k) as [m ->].
  rewrite concat_split_repeat_sep. cbn [Str.truthy].
  destruct (Breadcrumb_init os root "" "" template start_path is_local webroot);
    reflexivity.
Qed.

(** ** The text of a crumb *)









(** ** What the two attribute passes leave alone *)

Section Frame.

Variable os : OS.
Variable self : DocFragment.

Lemma same_but_refl keys t : same_but keys t t.
Proof. split; [reflexivity | intros; reflexivity]. Qed.

Lemma same_but_set keys t key v : In key keys -> same_but keys t (set t key v).
Proof.
  intros Hin. split; [reflexivity|].
  intros k Hk. cbn [attrs set]. apply lookup_insert_ne. intros ->. now apply Hk.
Qed.

Lemma same_but_weaken keys keys' t t' :
  (forall k, In k keys -> In k keys') -> same_but keys t t' -> same_but keys' t t'.
Proof. intros Hsub [Hn Ha]. split; [exact Hn|]. intros k Hk. apply Ha. auto. Qed.

Lemma same_but_trans keys t1 t2 t3 :
  same_but keys t1 t2 -> same_but keys t2 t3 -> same_but keys t1 t3.
Proof.
  intros [Hn1 Ha1] [Hn2 Ha2]. split; [congruence|].
  intros k Hk. rewrite Ha2, Ha1 by exact Hk. reflexivity.
Qed.

(** what [fix_link] hands back is the anchor, or the anchor with one of the
    two href attributes set *)
Lemma fix_link_result flag link flag' link' :
  fix_link os self flag link = Ok (flag', link') ->
  link' = link
  \/ exists key v, (key = "href" \/ key = "xlink:href") /\ link' = set link key (Some v).
Proof.
  destruct (href_read link) as [h|] eqn:E.
  - destruct (re.match_placeholder h) eqn:Ep.
    + rewrite (fix_link_placeholder os self flag link h E Ep). intros H.
      injection H as _ <-. now left.
    + destruct (resolved_ok os self h) as [v Hv].
      rewrite (fix_link_rewrites os self flag link h v E Ep Hv). intros H.
      injection H as _ <-. right.
      destruct (if truthy_opt (get link "href") then flag else true); eauto.
  - rewrite (fix_link_none os self flag link E). discriminate.
Qed.

Lemma fix_links_loop_frame tags :
  forall flag tags',
    fix_links_loop os self flag tags = Ok tags' ->
    Forall2 (fun t t' => same_but ["href"; "xlink:href"] t t'
                         /\ (selected "a" t = false -> t' = t)) tags tags'.
Proof.
  induction tags as [|t tags IH]; intros flag tags' H.
  - cbn in H. injection H as <-. constructor.
  - cbn [fix_links_loop] in H. destruct (selected "a" t) eqn:Ea.
    + destruct (fix_link os self flag t) as [[flag' t']|e] eqn:El;
        cbn [mbind result_bind] in H; [|discriminate].
      cbn [fst snd] in H.
      destruct (fix_links_loop os self flag' tags) as [rest|e] eqn:Er;
        cbn [mbind result_bind] in H; [|discriminate].
      injection H as <-. constructor; [|now apply (IH flag')].
      split; [|intros Hf; congruence].
      apply fix_link_result in El as [->|(key & v & [->| ->] & ->)].
      * apply same_but_refl.
      * apply same_but_set. now left.
      * apply same_but_set. right. now left.
    + destruct (fix_links_loop os self flag tags) as [rest|e] eqn:Er;
        cbn [mbind result_bind] in H; [|discriminate].
      injection H as <-. constructor; [|now apply (IH flag)].
      split; [apply same_but_refl | reflexivity].
Qed.

Lemma fix_img_result image image' :
  fix_img os self image = Ok image' -> exists v, image' = set image "src" v.
Proof.
  unfold fix_img.
  destruct (negb (is_local self)); [destruct (get image "src")|];
    cbn [mbind result_bind].
  - destruct (get_url_path os _ _ _ _); cbn; intros H; [|discriminate].
    injection H as <-. eauto.
  - discriminate.
  - intros H. injection H as <-. eauto.
Qed.

Lemma fix_imgs_loop_frame tags :
  forall tags',
    fix_imgs_loop os self tags = Ok tags' ->
    Forall2 (fun t t' => same_but ["src"] t t'
                         /\ (selected "img" t = false -> t' = t)) tags tags'.
Proof.
  induction tags as [|t tags IH]; intros tags' H.
  - cbn in H. injection H as <-. constructor.
  - cbn [fix_imgs_loop] in H.
    destruct (selected "img" t) eqn:Ei.
    + destruct (fix_img os self t) as [t'|e] eqn:Et; cbn [mbind result_bind] in H;
        [|discriminate].
      destruct (fix_imgs_loop os self tags) as [rest|e] eqn:Er;
        cbn [mbind result_bind] in H; [|discriminate].
      injection H as <-. constructor; [|now apply IH].
      split; [|intros Hf; congruence].
      apply fix_img_result in Et as [v ->]. apply same_but_set. now left.
    + cbn [mbind result_bind] in H.
      destruct (fix_imgs_loop os self tags) as [rest|e] eqn:Er;
        cbn [mbind result_bind] in H; [|discriminate].
      injection H as <-. constructor; [|now apply IH].
      split; [apply same_but_refl | reflexivity].
Qed.

End Frame.

Lemma Forall2_compose {A} (R1 R2 R : A -> A -> Prop) l1 l2 l3 :
  (forall a b c, R1 a b -> R2 b c -> R a c) ->
  Forall2 R1 l1 l2 -> Forall2 R2 l2 l3 -> Forall2 R l1 l3.
Proof.
  intros HR H12. revert l3. induction H12 as [|a b l1 l2 Hab _ IH]; intros l3 H23.
  - inversion H23. constructor.
  - inversion H23 as [|? c ? l3' Hbc H23']; subst. constructor; eauto.
Qed.

(** X18. When [fix_html] goes through, the fragment has the same elements in
    the same order with the same names; only the attributes [href],
    [xlink:href] and [src] can differ, and an element that is neither an
    anchor nor an image is the same as before.  The settings of the
    document are kept. *)
Theorem fix_html_frame (os : OS) (self doc : DocFragment) :
  fix_html os self = Ok doc ->
  Forall2 (fun t t' => same_but ["href"; "xlink:href"; "src"] t t'
                       /\ (selected "a" t = false -> selected "img" t = false -> t' = t))
    (soup self) (soup doc)
  /\ is_local doc = is_local self /\ doc_path doc = doc_path self
  /\ doc_root doc = doc_root self /\ webroot doc = webroot self.
Proof.
  unfold fix_html, fix_links, fix_imgs. intros H.
  destruct (fix_links_loop os self false (soup self)) as [tags1|e] eqn:E1;
    cbn [fmap result_fmap mbind result_bind] in H; [|discriminate].
  cbn [soup with_soup] in H.
  destruct (fix_imgs_loop os (with_soup self tags1) tags1) as [tags2|e] eqn:E2;
    cbn [fmap result_fmap] in H; [|discriminate].
  injection H as <-. cbn [soup with_soup is_local doc_path doc_root webroot].
  split; [|repeat split].
  apply fix_links_loop_frame in E1. apply fix_imgs_loop_frame in E2.
  refine (Forall2_compose _ _ _ _ _ _ _ E1 E2).
  intros a b c [Hab Hab'] [Hbc Hbc']. split.
  - apply same_but_trans with b.
    + apply (same_but_weaken ["href"; "xlink:href"]); [|exact Hab].
      cbn. intuition.
    + apply (same_but_weaken ["src"]); [|exact Hbc]. cbn. intuition.
  - intros Ha Hi. assert (b = a) as -> by now apply Hab'. now apply Hbc'.
Qed.

Lemma fix_html_frame_witness :
  Forall2 (fun t t' => same_but ["href"; "xlink:href"; "src"] t t'
                       /\ (selected "a" t = false -> selected "img" t = false -> t' = t))
    (soup (doc_example true [anchor [("href", Some "guide.md"); ("class", Some "nav")]]))
    (soup (doc_example true [anchor [("href", Some "guide.html"); ("class", Some "nav")]]))
  /\ is_local (doc_example true [anchor [("href", Some "guide.html"); ("class", Some "nav")]])
     = is_local (doc_example true [anchor [("href", Some "guide.md"); ("class", Some "nav")]])
  /\ doc_path (doc_example true [anchor [("href", Some "guide.html"); ("class", Some "nav")]])
     = doc_path (doc_example true [anchor [("href", Some "guide.md"); ("class", Some "nav")]])
  /\ doc_root (doc_example true [anchor [("href", Some "guide.html"); ("class", Some "nav")]])
     = doc_root (doc_example true [anchor [("href", Some "guide.md"); ("class", Some "nav")]])
  /\ webroot (doc_example true [anchor [("href", Some "guide.html"); ("class", Some "nav")]])
     = webroot (doc_example true [anchor [("href", Some "guide.md"); ("class", Some "nav")]]).
Proof.
  apply (fix_html_frame (os_example [])).
  vm_compute. reflexivity.
Defined.

(** ** Placeholders, and fixing links twice *)

Lemma with_soup_same (self : DocFragment) : with_soup self (soup self) = self.
Proof. now destruct self. Qed.

Lemma fix_links_loop_placeholders os self tags :
  (forall t, In t tags -> selected "a" t = true ->
     exists h, href_read t = Some h /\ re.match_placeholder h = true) ->
  forall flag, fix_links_loop os self flag tags = Ok tags.
Proof.
  induction tags as [|t tags IH]; intros H flag; [reflexivity|].
  cbn [fix_links_loop]. destruct (selected "a" t) eqn:Ea.
  - destruct (H t (or_introl eq_refl) Ea) as (h & Hh & Hp).
    rewrite (fix_link_placeholder os self flag t h Hh Hp). cbn [mbind result_bind fst snd].
    rewrite IH; [reflexivity|]. intros t' Hin. apply H. now right.
  - rewrite IH; [reflexivity|]. intros t' Hin. apply H. now right.
Qed.

(** X19. A fragment in which every anchor has a brace placeholder as its
    href, like the breadcrumb template, comes out of [fix_links] as it went
    in, in Local mode and in Web mode. *)
Theorem fix_links_keeps_placeholders (os : OS) (self : DocFragment) :
  (forall t, In t (soup self) -> selected "a" t = true ->
     exists h, href_read t = Some h /\ re.match_placeholder h = true) ->
  fix_links os self = Ok self.
Proof.
  intros H. unfold fix_links.
  rewrite (fix_links_loop_placeholders os self (soup self) H).
  cbn [fmap result_fmap]. now rewrite with_soup_same.
Qed.

Lemma fix_links_keeps_placeholders_witness :
  fix_links (os_example [])
    (doc_example false [ {| name := "li"; attrs := ∅ |}; anchor [("href", Some "{href}")] ])
  = Ok (doc_example false
          [ {| name := "li"; attrs := ∅ |}; anchor [("href", Some "{href}")] ]).
Proof.
  apply (fix_links_keeps_placeholders (os_example [])).
  intros t [<-|[<-|[]]]; [discriminate|].
  intros _. exists "{href}". split; vm_compute; reflexivity.
Defined.

(** [sub_md] keeps the first character, and the emptiness, of a string. *)
Lemma sub_md_head s :
  match s, re.sub_md s with
  | EmptyString, EmptyString => True
  | String a _, String b _ => a = b
  | _, _ => False
  end.
Proof.
  destruct s as [|a s]; [exact I|].
  rewrite sub_md_cons. destruct (md_here (String a s)) eqn:E; [|reflexivity].
  unfold md_here in E. apply andb_true_iff in E as [E _].
  apply startswith_md_inv in E as [s' Hs']. injection Hs' as -> _. reflexivity.
Qed.

Lemma sub_md_truthy s : Str.truthy (re.sub_md s) = Str.truthy s.
Proof.
  pose proof (sub_md_head s) as H.
  destruct s, (re.sub_md _); try reflexivity; contradiction.
Qed.

Lemma sub_md_boundary s : re.boundary (re.sub_md s) = re.boundary s.
Proof.
  pose proof (sub_md_head s) as H.
  destruct s, (re.sub_md _); try reflexivity; try contradiction.
  subst. reflexivity.
Qed.

Lemma md_here_cons a s :
  md_here (String a s)
  = Str.eqc "." a && Str.startswith "md" s && re.boundary (Str.drop 2 s).
Proof. unfold md_here. cbn [Str.startswith Str.drop]. reflexivity. Qed.

Lemma md_here_head a s : md_here (String a s) = true -> a = "."%char.
Proof.
  rewrite md_here_cons. intros H. apply andb_true_iff in H as [H _].
  apply andb_true_iff in H as [H _]. now apply eqc_true in H.
Qed.

(** after an [m] and a [d] the rewrite goes on with the rest *)
Lemma sub_md_after_md s :
  Str.startswith "md" s = true ->
  exists s3, s = "md" +:+ s3 /\ re.sub_md s = "md" +:+ re.sub_md s3.
Proof.
  destruct s as [|m [|d s3]]; cbn [Str.startswith]; intros H;
    try (rewrite ?andb_false_r in H; discriminate).
  apply andb_true_iff in H as [Hm H]. apply andb_true_iff in H as [Hd _].
  apply eqc_true in Hm, Hd. subst. exists s3. split; [reflexivity|].
  rewrite sub_md_cons.
  assert (H1 : md_here (String "m" (String "d" s3)) = false) by reflexivity.
  rewrite H1, sub_md_cons.
  assert (H2 : md_here (String "d" s3) = false) by reflexivity.
  rewrite H2. reflexivity.
Qed.

Lemma sub_md_startswith_md s :
  Str.startswith "md" (re.sub_md s) = Str.startswith "md" s.
Proof.
  destruct (Str.startswith "md" s) eqn:E.
  - destruct (sub_md_after_md s E) as (s3 & -> & ->). reflexivity.
  - destruct s as [|a s]; [reflexivity|].
    rewrite sub_md_cons. destruct (md_here (String a s)) eqn:Eh; [reflexivity|].
    cbn [Str.startswith] in *.
    destruct (Str.eqc "m" a); [|reflexivity]. cbn [andb] in *.
    pose proof (sub_md_head s) as Hh.
    destruct s as [|b s], (re.sub_md _) as [|b' s']; try contradiction; try reflexivity.
    subst b'. cbn [Str.startswith] in *. rewrite !andb_true_r in *. exact E.
Qed.

Lemma md_here_sub_md a s : md_here (String a (re.sub_md s)) = md_here (String a s).
Proof.
  rewrite !md_here_cons, sub_md_startswith_md.
  destruct (Str.startswith "md" s) eqn:E; [|now rewrite !andb_false_r].
  destruct (sub_md_after_md s E) as (s3 & -> & ->).
  change (Str.drop 2 ("md" +:+ re.sub_md s3)) with (re.sub_md s3).
  change (Str.drop 2 ("md" +:+ s3)) with s3.
  now rewrite sub_md_boundary.
Qed.

Lemma sub_md_html t : re.sub_md (".html" +:+ t) = ".html" +:+ re.sub_md t.
Proof.
  change (".html" +:+ t)
    with (String "." (String "h" (String "t" (String "m" (String "l" t))))).
  rewrite sub_md_cons.
  assert (H1 : md_here (String "." (String "h" (String "t" (String "m" (String "l" t)))))
               = false) by reflexivity.
  rewrite H1, sub_md_cons.
  assert (H2 : md_here (String "h" (String "t" (String "m" (String "l" t)))) = false)
    by reflexivity.
  rewrite H2, sub_md_cons.
  assert (H3 : md_here (String "t" (String "m" (String "l" t))) = false) by reflexivity.
  rewrite H3, sub_md_cons.
  assert (H4 : md_here (String "m" (String "l" t)) = false).
  { rewrite md_here_cons. reflexivity. }
  rewrite H4, sub_md_cons.
  assert (H5 : md_here (String "l" t) = false).
  { rewrite md_here_cons. reflexivity. }
  rewrite H5. reflexivity.
Qed.

Lemma sub_md_idempotent_upto n :
  forall s, String.length s <= n -> re.sub_md (re.sub_md s) = re.sub_md s.
Proof.
  induction n as [|n IH]; intros s Hlen.
  - destruct s; [reflexivity | cbn in Hlen; lia].
  - destruct s as [|a s]; [reflexivity|]. cbn [String.length] in Hlen.
    rewrite sub_md_cons. destruct (md_here (String a s)) eqn:E.
    + rewrite sub_md_html, IH; [reflexivity|].
      destruct s as [|b [|c s]]; cbn [Str.drop String.length] in *; lia.
    + rewrite sub_md_cons, md_here_sub_md, E, IH; [reflexivity | lia].
Qed.

(** The rewrite of [.md], done twice, is the rewrite done once. *)
Lemma sub_md_idempotent s : re.sub_md (re.sub_md s) = re.sub_md s.
Proof. apply (sub_md_idempotent_upto (String.length s)). lia. Qed.

Lemma dotstar_close_sub_md_upto n :
  forall s, String.length s <= n -> re.dotstar_close (re.sub_md s) = re.dotstar_close s.
Proof.
  induction n as [|n IH]; intros s Hlen.
  - destruct s; [reflexivity | cbn in Hlen; lia].
  - destruct s as [|a s]; [reflexivity|]. cbn [String.length] in Hlen.
    rewrite sub_md_cons. destruct (md_here (String a s)) eqn:E.
    + pose proof (md_here_head a s E) as ->.
      rewrite md_here_cons in E. apply andb_true_iff in E as [E _].
      apply andb_true_iff in E as [_ E].
      destruct (sub_md_after_md s E) as (s3 & -> & _).
      change (Str.drop 2 ("md" +:+ s3)) with s3.
      change (re.dotstar_close (".html" +:+ re.sub_md s3))
        with (re.dotstar_close (re.sub_md s3)).
      change (re.dotstar_close (String "." ("md" +:+ s3))) with (re.dotstar_close s3).
      apply IH. cbn [String.length] in Hlen.
      change (String.length ("md" +:+ s3)) with (S (S (String.length s3))) in Hlen. lia.
    + cbn [re.dotstar_close]. rewrite IH by lia. reflexivity.
Qed.

Lemma match_placeholder_sub_md s :
  re.match_placeholder (re.sub_md s) = re.match_placeholder s.
Proof.
  destruct s as [|a s]; [reflexivity|].
  rewrite sub_md_cons. destruct (md_here (String a s)) eqn:E.
  - pose proof (md_here_head a s E) as ->. reflexivity.
  - cbn [re.match_placeholder].
    rewrite (dotstar_close_sub_md_upto (String.length s)) by lia. reflexivity.
Qed.

Section LocalTwice.

Variable os : OS.

Lemma set_set (t : Tag) key v w : set (set t key v) key w = set t key w.
Proof. unfold set. cbn [name attrs]. now rewrite insert_insert_eq. Qed.

Lemma get_set (t : Tag) key v : get (set t key v) key = v.
Proof. unfold get, set. cbn [attrs]. now rewrite lookup_insert_eq. Qed.

Lemma truthy_opt_inv x : truthy_opt x = true -> exists h, x = Some h /\ Str.truthy h = true.
Proof. destruct x as [h|]; [eauto | discriminate]. Qed.

(** In Local mode an anchor with a href goes through with the flag as it
    was, and what comes out goes through unchanged. *)
Lemma fix_link_local_twice (self self' : DocFragment) (t : Tag) :
  is_local self = true -> is_local self' = true ->
  truthy_opt (get t "href") = true ->
  exists t1, fix_link os self false t = Ok (false, t1)
             /\ fix_link os self' false t1 = Ok (false, t1)
             /\ name t1 = name t.
Proof.
  intros Hl Hl' Ht.
  destruct (truthy_opt_inv _ Ht) as (h & Hh & Hth).
  assert (Hread : href_read t = Some h) by (unfold href_read; now rewrite Ht).
  destruct (re.match_placeholder h) eqn:Ep.
  - exists t. rewrite !(fix_link_placeholder os _ false t h Hread Ep), Ht. auto.
  - assert (Hres : forall d x, is_local d = true -> resolved os d x = Ok x).
    { intros d x Hd. unfold resolved. now rewrite Hd. }
    exists (set t "href" (Some (re.sub_md h))).
    rewrite (fix_link_rewrites os self false t h h Hread Ep (Hres _ _ Hl)).
    rewrite Ht. split; [reflexivity|]. split; [|reflexivity].
    assert (Hget : get (set t "href" (Some (re.sub_md h))) "href" = Some (re.sub_md h))
      by apply get_set.
    assert (Ht1 : truthy_opt (get (set t "href" (Some (re.sub_md h))) "href") = true).
    { rewrite Hget. cbn [truthy_opt]. now rewrite sub_md_truthy. }
    assert (Hread1 : href_read (set t "href" (Some (re.sub_md h))) = Some (re.sub_md h)).
    { unfold href_read. now rewrite Ht1. }
    rewrite (fix_link_rewrites os self' false _ (re.sub_md h) (re.sub_md h) Hread1).
    + rewrite Ht1, sub_md_idempotent, set_set. reflexivity.
    + now rewrite match_placeholder_sub_md.
    + now apply Hres.
Qed.

Lemma fix_links_loop_local_twice (self self' : DocFragment) tags :
  is_local self = true -> is_local self' = true ->
  (forall t, In t tags -> selected "a" t = true -> truthy_opt (get t "href") = true) ->
  exists tags', fix_links_loop os self false tags = Ok tags'
                /\ fix_links_loop os self' false tags' = Ok tags'.
Proof.
  intros Hl Hl'. induction tags as [|t tags IH]; intros H.
  - exists []. split; reflexivity.
  - destruct IH as (rest & Hr1 & Hr2); [intros t' Hin; apply H; now right|].
    cbn [fix_links_loop]. destruct (selected "a" t) eqn:Ea.
    + destruct (fix_link_local_twice self self' t Hl Hl' (H t (or_introl eq_refl) Ea))
        as (t1 & H1 & H2 & Hn).
      exists (t1 :: rest). rewrite H1. cbn [mbind result_bind fst snd]. rewrite Hr1.
      split; [reflexivity|]. cbn [fix_links_loop].
      unfold selected in *. rewrite Hn, Ea, H2. cbn [mbind result_bind fst snd].
      rewrite Hr2. reflexivity.
    + exists (t :: rest). rewrite Hr1. split; [reflexivity|].
      cbn [fix_links_loop]. rewrite Ea, Hr2. reflexivity.
Qed.

End LocalTwice.

(** X20. In Local mode, on a fragment whose anchors all have a href,
    [fix_links] goes through, and running it again on what it made changes
    nothing more. *)
Theorem fix_links_local_idempotent (os : OS) (self : DocFragment) :
  is_local self = true ->
  (forall t, In t (soup self) -> selected "a" t = true ->
     truthy_opt (get t "href") = true) ->
  exists doc, fix_links os self = Ok doc /\ fix_links os doc = Ok doc.
Proof.
  intros Hl H.
  destruct (fix_links_loop_local_twice os self (with_soup self (soup self)) (soup self)
              Hl Hl H) as (tags' & H1 & _).
  destruct (fix_links_loop_local_twice os self (with_soup self tags') (soup self)
              Hl Hl H) as (tags'' & H1' & H2).
  rewrite H1 in H1'. injection H1' as <-.
  exists (with_soup self tags'). unfold fix_links. rewrite H1.
  split; [reflexivity|]. cbn [soup with_soup]. rewrite H2. reflexivity.
Qed.

Lemma fix_links_local_idempotent_witness :
  exists doc,
    fix_links (os_example [])
      (doc_example true [anchor [("href", Some "b/guide.md#top")];
                         {| name := "p"; attrs := ∅ |}]) = Ok doc
    /\ fix_links (os_example []) doc = Ok doc.
Proof.
  apply (fix_links_local_idempotent (os_example [])).
  - reflexivity.
  - intros t [<-|[<-|[]]]; [intros _; vm_compute; reflexivity | discriminate].
Defined.

(** ** The edges of [fix_imgs] *)

Section FixImgs.

Variable os : OS.
Variable self : DocFragment.

Lemma fix_img_cases image :
  (exists r, fix_img os self image = Ok r)
  \/ fix_img os self image = Raise AttributeError.
Proof.
  unfold fix_img. destruct (negb (is_local self)); [|left; eauto].
  destruct (get image "src") as [src|]; [|now right].
  destruct (get_url_path_ok os src (doc_path self) (doc_root self) (webroot self))
    as [rel ->].
  left. eauto.
Qed.

Lemma fix_imgs_loop_no_src tags image :
  is_local self = false ->
  In image tags -> selected "img" image = true -> get image "src" = None ->
  fix_imgs_loop os self tags = Raise AttributeError.
Proof.
  intros Hl Hin Hi Hsrc. induction tags as [|t tags IH]; [destruct Hin|].
  cbn [fix_imgs_loop]. destruct Hin as [->|Hin].
  - rewrite Hi. unfold fix_img. rewrite Hl, Hsrc. reflexivity.
  - destruct (selected "img" t).
    + destruct (fix_img_cases t) as [[r Hr]|Hr]; rewrite Hr; [|reflexivity].
      cbn [mbind result_bind]. rewrite (IH Hin). reflexivity.
    + cbn [mbind result_bind]. rewrite (IH Hin). reflexivity.
Qed.

Lemma fix_imgs_loop_local tags :
  is_local self = true ->
  exists tags', fix_imgs_loop os self tags = Ok tags'
    /\ ((forall t, In t tags -> selected "img" t = true ->
           exists v, attrs t !! "src" = Some v) -> tags' = tags).
Proof.
  intros Hl. induction tags as [|t tags (rest & Hr & Hid)].
  - exists []. split; [reflexivity | auto].
  - cbn [fix_imgs_loop]. destruct (selected "img" t) eqn:Ei.
    + unfold fix_img. rewrite Hl. cbn [negb mbind result_bind]. rewrite Hr.
      cbn [mbind result_bind]. eexists. split; [reflexivity|].
      intros H. rewrite Hid by (intros t' Hin; apply H; now right).
      destruct (H t (or_introl eq_refl) Ei) as [v Hv]. f_equal.
      unfold get, set. rewrite Hv. cbn [mbind option_bind id].
      destruct t as [n a]. cbn [name attrs] in *. f_equal. now apply insert_id.
    + cbn [mbind result_bind]. rewrite Hr. cbn [mbind result_bind].
      eexists. split; [reflexivity|].
      intros H. rewrite Hid by (intros t' Hin; apply H; now right). reflexivity.
Qed.

End FixImgs.

(** X21. In Web mode an image without a [src] makes [fix_imgs] raise
    ([None] has no [replace]); the file then ends in the handler of the
    driver when its links went through. *)
Theorem fix_imgs_raises_without_src (os : OS) (self : DocFragment) (image : Tag) :
  is_local self = false ->
  In image (soup self) ->
  name image = "img" ->
  attrs image !! "src" = None ->
  fix_imgs os self = Raise AttributeError.
Proof.
  intros Hl Hin Hn Hsrc. unfold fix_imgs.
  rewrite (fix_imgs_loop_no_src os self (soup self) image Hl Hin); [reflexivity | |].
  - unfold selected. rewrite Hn. reflexivity.
  - unfold get. rewrite Hsrc. reflexivity.
Qed.

Lemma fix_imgs_raises_without_src_witness :
  fix_imgs (os_example [])
    (doc_example false [img [("src", Some "a.png")]; img [("alt", Some "logo")]])
  = Raise AttributeError.
Proof.
  apply (fix_imgs_raises_without_src (os_example []) _ (img [("alt", Some "logo")])).
  - reflexivity.
  - right. left. reflexivity.
  - reflexivity.
  - vm_compute. reflexivity.
Defined.

(** X22. In Local mode [fix_imgs] never raises, and it changes nothing in a
    fragment whose images all have a [src] attribute. *)
Theorem fix_imgs_local_no_change (os : OS) (self : DocFragment) :
  is_local self = true ->
  (exists doc, fix_imgs os self = Ok doc)
  /\ ((forall t, In t (soup self) -> selected "img" t = true ->
         exists v, attrs t !! "src" = Some v) ->
      fix_imgs os self = Ok self).
Proof.
  intros Hl. destruct (fix_imgs_loop_local os self (soup self) Hl) as (tags' & H1 & H2).
  unfold fix_imgs. rewrite H1. split; [eexists; reflexivity|].
  intros H. rewrite (H2 H). cbn [fmap result_fmap]. now rewrite with_soup_same.
Qed.

Lemma fix_imgs_local_no_change_witness :
  (exists doc, fix_imgs (os_example []) (doc_example true [img [("src", Some "a.md")]])
               = Ok doc)
  /\ ((forall t, In t (soup (doc_example true [img [("src", Some "a.md")]])) ->
         selected "img" t = true -> exists v, attrs t !! "src" = Some v) ->
      fix_imgs (os_example []) (doc_example true [img [("src", Some "a.md")]])
      = Ok (doc_example true [img [("src", Some "a.md")]])).
Proof.
  apply (fix_imgs_local_no_change (os_example [])). reflexivity.
Defined.

(** ** [parse_sys_args] *)

Lemma in_keys_In k keys : in_keys k keys = true <-> In k keys.
Proof.
  unfold in_keys. rewrite existsb_exists. split.
  - intros (x & Hin & Hx). apply String.eqb_eq in Hx. now subst.
  - intros Hin. exists k. split; [exact Hin | apply String.eqb_refl].
Qed.

Lemma parse_loop_app st pre post :
  parse_loop st (pre ++ post)
  = match parse_loop st pre with
    | inl st' => parse_loop st' post
    | inr stop => inr stop
    end.
Proof.
  revert st. induction pre as [|a pre IH]; intros st; [reflexivity|].
  cbn [app parse_loop]. destruct (parse_arg st a); [apply IH | reflexivity].
Qed.

Lemma parse_arg_shortcut st c key :
  shortcut c ARGV_SHORTCUTS = Some key ->
  parse_arg st (String "-" (String c "")) = parse_arg st ("--" +:+ key).
Proof.
  unfold ARGV_SHORTCUTS. cbn [shortcut].
  repeat match goal with
         | |- (if Str.eqc ?a c then _ else _) = _ -> _ =>
             let E := fresh "E" in
             destruct (Str.eqc a c) eqn:E;
             [apply eqc_true in E; subst c; intros H; injection H as <-; reflexivity|]
         end.
  discriminate.
Qed.

Lemma fatal_stops arg :
  fatal arg = true -> forall st, exists stop, parse_arg st arg = inr stop.
Proof.
  unfold fatal, parse_arg. intros H st.
  destruct (String.eqb (Str.take 2 arg) "--").
  - destruct (String.eqb (Str.drop 2 arg) "help"); [eauto|].
    cbn [orb] in H. apply andb_true_iff in H as [Hk Ht].
    apply negb_true_iff in Hk. unfold note_key. rewrite Hk, Ht. eauto.
  - destruct (match_short arg) as [c|]; [|discriminate].
    destruct (shortcut c ARGV_SHORTCUTS); [discriminate | eauto].
Qed.

Lemma parse_loop_fatal argv :
  (exists arg, In arg argv /\ fatal arg = true) ->
  forall st, exists stop, parse_loop st argv = inr stop.
Proof.
  intros (arg & Hin & Hf). induction argv as [|a argv IH]; [destruct Hin|].
  intros st. cbn [parse_loop]. destruct Hin as [->|Hin].
  - destruct (fatal_stops arg Hf st) as [stop ->]. eauto.
  - destruct (parse_arg st a) as [st'|stop]; [apply (IH Hin) | eauto].
Qed.

Lemma plain_arg st arg :
  plain arg = true ->
  parse_arg st arg
  = match next_key st with
    | Some nk =>
        if in_keys nk ["css"; "js"] then
          match args st !! nk with
          | Some (VList l) =>
              inl {| args := <[nk := VList (l ++ [arg])]> (args st);
                     next_key := next_key st; printed := printed st |}
          | Some _ => inr (printed st, AttributeErrorRaised)
          | None => inr (printed st, KeyErrorRaised)
          end
        else if in_keys nk DEFAULT_KEYS then
          if negb (Str.truthy arg)
          then inr (printed st ++ [MustBeFollowed], SystemExit 1)
          else inl {| args := <[nk := VStr arg]> (args st); next_key := None;
                      printed := printed st |}
        else inl st
    | None => inl st
    end.
Proof.
  unfold plain, parse_arg. intros H. apply andb_true_iff in H as [H1 H2].
  apply andb_true_iff in H1 as [_ H1].
  apply negb_true_iff in H1. rewrite H1.
  destruct (match_short arg); [discriminate | reflexivity].
Qed.

Lemma parse_loop_stray st extra :
  next_key st = None -> Forall (fun v => plain v = true) extra ->
  parse_loop st extra = inl st.
Proof.
  intros Hnk. induction 1 as [|v extra Hv _ IH]; [reflexivity|].
  cbn [parse_loop]. rewrite (plain_arg st v Hv), Hnk. exact IH.
Qed.

Lemma parse_loop_list key st vals :
  in_keys key ["css"; "js"] = true ->
  Forall (fun v => plain v = true) vals ->
  forall l,
    next_key st = Some key -> args st !! key = Some (VList l) ->
    parse_loop st vals
    = inl {| args := <[key := VList (l ++ vals)]> (args st);
             next_key := Some key; printed := printed st |}.
Proof.
  intros Hkey Hvals. revert st.
  induction Hvals as [|v vals Hv _ IH]; intros st l Hnk Hl.
  - cbn [parse_loop]. rewrite app_nil_r, (insert_id _ _ _ Hl).
    destruct st. cbn in *. now subst.
  - cbn [parse_loop]. rewrite (plain_arg st v Hv), Hnk, Hkey, Hl.
    rewrite (IH _ (l ++ [v])); cbn [args next_key printed].
    + rewrite insert_insert_eq, <- app_assoc. reflexivity.
    + reflexivity.
    + apply lookup_insert_eq.
Qed.

Lemma start_args_lookup k v :
  ({[ "css" := VList []; "js" := VList [] ]} : gmap string argval) !! k = Some v ->
  (k = "css" \/ k = "js") /\ v = VList [].
Proof.
  intros H. destruct (decide (k = "css")) as [->|Hc].
  - rewrite lookup_insert_eq in H. injection H as <-. auto.
  - rewrite lookup_insert_ne in H by congruence.
    destruct (decide (k = "js")) as [->|Hj].
    + rewrite lookup_singleton_eq in H. injection H as <-. auto.
    + rewrite lookup_singleton_ne in H by congruence. discriminate.
Qed.

Lemma parse_inv_start :
  parse_inv {| args := {[ "css" := VList []; "js" := VList [] ]};
               next_key := None; printed := [] |}.
Proof.
  split; [|split; [reflexivity | discriminate]].
  cbn [args]. repeat split.
  - intros k v H. apply start_args_lookup in H as [[-> | ->] _]; cbn; auto 10.
  - exists []. reflexivity.
  - exists []. reflexivity.
  - intros v H. apply start_args_lookup in H as [[H | H] _]; discriminate.
  - intros k v H Hc Hj _. apply start_args_lookup in H as [[-> | ->] _]; congruence.
Qed.

Lemma typed_args_insert_list a nk l :
  typed_args a -> nk = "css" \/ nk = "js" -> typed_args (<[nk := VList l]> a).
Proof.
  intros (Hk & [lc Hc] & [lj Hj] & Hloc & Hstr) Hnk.
  assert (Hin : In nk DEFAULT_KEYS) by (destruct Hnk as [-> | ->]; cbn; auto 10).
  assert (Hnl : nk <> "local") by (destruct Hnk as [-> | ->]; discriminate).
  repeat split.
  - intros k v. destruct (decide (nk = k)) as [<-|Hne]; [auto|].
    rewrite lookup_insert_ne by exact Hne. apply Hk.
  - destruct (decide (nk = "css")) as [->|Hne];
      [rewrite lookup_insert_eq | rewrite lookup_insert_ne by exact Hne]; eauto.
  - destruct (decide (nk = "js")) as [->|Hne];
      [rewrite lookup_insert_eq | rewrite lookup_insert_ne by exact Hne]; eauto.
  - intros v. rewrite lookup_insert_ne by exact Hnl. apply Hloc.
  - intros k v H H1 H2 H3.
    rewrite lookup_insert_ne in H by (destruct Hnk as [-> | ->]; congruence).
    now apply (Hstr k v).
Qed.

Lemma typed_args_insert_str a nk s :
  typed_args a -> In nk DEFAULT_KEYS -> nk <> "css" -> nk <> "js" -> nk <> "local" ->
  Str.truthy s = true -> typed_args (<[nk := VStr s]> a).
Proof.
  intros (Hk & [lc Hc] & [lj Hj] & Hloc & Hstr) Hin H1 H2 H3 Hs.
  repeat split.
  - intros k v. destruct (decide (nk = k)) as [<-|Hne]; [auto|].
    rewrite lookup_insert_ne by exact Hne. apply Hk.
  - rewrite lookup_insert_ne by exact H1. eauto.
  - rewrite lookup_insert_ne by exact H2. eauto.
  - intros v. rewrite lookup_insert_ne by exact H3. apply Hloc.
  - intros k v H Hc' Hj' Hl'. destruct (decide (nk = k)) as [<-|Hne].
    + rewrite lookup_insert_eq in H. injection H as <-. eauto.
    + rewrite lookup_insert_ne in H by exact Hne. now apply (Hstr k v).
Qed.

Lemma typed_args_insert_local a :
  typed_args a -> typed_args (<["local" := VTrue]> a).
Proof.
  intros (Hk & [lc Hc] & [lj Hj] & Hloc & Hstr).
  repeat split.
  - intros k v. destruct (decide ("local" = k)) as [<-|Hne]; [cbn; auto 10|].
    rewrite lookup_insert_ne by exact Hne. apply Hk.
  - rewrite lookup_insert_ne by discriminate. eauto.
  - rewrite lookup_insert_ne by discriminate. eauto.
  - intros v. rewrite lookup_insert_eq. congruence.
  - intros k v H H1 H2 H3. rewrite lookup_insert_ne in H by congruence.
    now apply (Hstr k v).
Qed.

Lemma note_key_inv st arg key st' :
  parse_inv st -> note_key st arg key = inl st' -> parse_inv st'.
Proof.
  intros (Ha & Hp & Hn) H. unfold note_key in H.
  destruct key as [k|]; [|injection H as <-; exact (conj Ha (conj Hp Hn))].
  destruct (in_keys k DEFAULT_KEYS) eqn:Ek.
  - apply in_keys_In in Ek. destruct (String.eqb k "local") eqn:El.
    + injection H as <-. split; [|split]; cbn [args printed next_key].
      * now apply typed_args_insert_local.
      * exact Hp.
      * discriminate.
    + injection H as <-. split; [|split]; cbn [args printed next_key].
      * exact Ha.
      * exact Hp.
      * intros nk [= <-]. split; [exact Ek|]. now apply String.eqb_neq.
  - destruct (Str.truthy k); [discriminate|]. injection H as <-. exact (conj Ha (conj Hp Hn)).
Qed.

Lemma parse_arg_inv st arg st' :
  parse_inv st -> parse_arg st arg = inl st' -> parse_inv st'.
Proof.
  intros Hinv H. unfold parse_arg in H.
  destruct (String.eqb (Str.take 2 arg) "--").
  { destruct (String.eqb (Str.drop 2 arg) "help"); [discriminate|].
    exact (note_key_inv st arg _ st' Hinv H). }
  destruct (match_short arg) as [c|].
  { destruct (shortcut c ARGV_SHORTCUTS); [|discriminate].
    exact (note_key_inv st arg _ st' Hinv H). }
  pose proof Hinv as (Ha & Hp & Hn).
  destruct (next_key st) as [nk|] eqn:Enk; [|injection H as <-; exact Hinv].
  destruct (Hn nk eq_refl) as [Hin Hnl].
  destruct (in_keys nk ["css"; "js"]) eqn:Ecj.
  - apply in_keys_In in Ecj.
    assert (Hcj : nk = "css" \/ nk = "js") by (cbn in Ecj; intuition).
    destruct (args st !! nk) as [[s| |l]|]; try discriminate.
    injection H as <-. split; [|split]; cbn [args printed next_key].
    + now apply typed_args_insert_list.
    + exact Hp.
    + intros nk' [= <-]. auto.
  - rewrite (proj2 (in_keys_In nk DEFAULT_KEYS) Hin) in H.
    destruct (Str.truthy arg) eqn:Et; cbn [negb] in H; [|discriminate].
    injection H as <-. split; [|split]; cbn [args printed next_key].
    + apply typed_args_insert_str; try assumption.
      * intros ->. discriminate.
      * intros ->. discriminate.
    + exact Hp.
    + discriminate.
Qed.

Lemma parse_loop_inv argv :
  forall st st', parse_inv st -> parse_loop st argv = inl st' -> parse_inv st'.
Proof.
  induction argv as [|a argv IH]; intros st st' Hinv H.
  - cbn in H. now injection H as <-.
  - cbn [parse_loop] in H. destruct (parse_arg st a) as [st1|stop] eqn:E; [|discriminate].
    apply (IH st1 st'); [|exact H]. now apply (parse_arg_inv st a).
Qed.


(** X23. A short option and the long option it stands for are the same to
    [parse_sys_args], wherever they stand among the arguments. *)
Theorem parse_sys_args_shortcut (prog : string) (pre post : list string)
    (c : ascii) (key : string) :
  shortcut c ARGV_SHORTCUTS = Some key ->
  parse_sys_args (prog :: pre ++ String "-" (String c "") :: post)
  = parse_sys_args (prog :: pre ++ ("--" +:+ key) :: post).
Proof.
  intros H. unfold parse_sys_args. cbn [List.tl].
  rewrite !parse_loop_app.
  destruct (parse_loop _ pre) as [st|stop]; [|reflexivity].
  cbn [parse_loop]. rewrite (parse_arg_shortcut st c key H). reflexivity.
Qed.

Lemma parse_sys_args_shortcut_witness :
  parse_sys_args ("crumbler.py" :: ["-l"] ++ String "-" (String "p" "") :: ["docs/"])
  = parse_sys_args ("crumbler.py" :: ["-l"] ++ ("--" +:+ "path") :: ["docs/"]).
Proof.
  apply (parse_sys_args_shortcut "crumbler.py" ["-l"] ["docs/"] "p" "path").
  reflexivity.
Defined.

(** X24. When [parse_sys_args] returns, nothing was printed, and the
    dictionary has keys of [DEFAULT_ARGS] only: [css] and [js] are there
    and are lists, [local] is [True] when it is there, and every other
    value is a non-empty string. *)
Theorem parse_sys_args_typed (argv : list string) (a : gmap string argval)
    (out : list message) :
  parse_sys_args argv = Parsed a out ->
  typed_args a /\ out = [].
Proof.
  unfold parse_sys_args. cbv zeta.
  destruct (parse_loop _ (List.tl argv)) as [st|[o i]] eqn:E; [|discriminate].
  intros H. injection H as <- <-.
  destruct (parse_loop_inv _ _ _ parse_inv_start E) as (Ha & Hp & _). auto.
Qed.

Lemma parse_sys_args_typed_witness :
  typed_args (<["css" := VList ["a.css"]]>
                (<["path" := VStr "docs/"]>
                   ({[ "css" := VList []; "js" := VList [] ]} : gmap string argval)))
  /\ ([] : list message) = [].
Proof.
  apply (parse_sys_args_typed ["crumbler.py"; "-p"; "docs/"; "-c"; "a.css"]).
  vm_compute. reflexivity.
Defined.

(** X25. After [--css] every argument of ASCII characters that is no
    option goes into the list, the empty string too; the option takes any
    number of values. *)
Theorem parse_sys_args_css_values (prog : string) (vals : list string) :
  Forall (fun v => plain v = true) vals ->
  parse_sys_args (prog :: "--css" :: vals)
  = Parsed {[ "css" := VList vals; "js" := VList [] ]} [].
Proof.
  intros H. unfold parse_sys_args. cbn [List.tl parse_loop].
  change (parse_arg _ "--css")
    with (@inl parse_state (list message * interrupt)
            {| args := {[ "css" := VList []; "js" := VList [] ]};
               next_key := Some "css"; printed := [] |}).
  cbv beta iota.
  rewrite (parse_loop_list "css" _ vals eq_refl H []); [|reflexivity|reflexivity].
  cbn [args printed app]. now rewrite insert_insert_eq.
Qed.

Lemma parse_sys_args_css_values_witness :
  parse_sys_args ("crumbler.py" :: "--css" :: ["main.css"; ""; "-print.css"])
  = Parsed {[ "css" := VList ["main.css"; ""; "-print.css"]; "js" := VList [] ]} [].
Proof.
  apply (parse_sys_args_css_values "crumbler.py" ["main.css"; ""; "-print.css"]).
  repeat constructor.
Defined.

(** X26. An argument list with [--help], with a long option that is no key
    of [DEFAULT_ARGS], or with a short option whose letter is no shortcut,
    never gives a dictionary: [exit] raises inside the [try], the bare
    [except] catches it, and the exit status is 1, after [--help] too; the
    last line printed is that of the handler. *)
Theorem parse_sys_args_fatal (argv : list string) (arg : string) :
  In arg (List.tl argv) ->
  fatal arg = true ->
  exists out, parse_sys_args argv = Exited 1 (out ++ [UnknownError]).
Proof.
  intros Hin Hf. unfold parse_sys_args. cbv zeta.
  destruct (parse_loop_fatal (List.tl argv) (ex_intro _ arg (conj Hin Hf))
              {| args := {[ "css" := VList []; "js" := VList [] ]};
                 next_key := None; printed := [] |}) as [[out i] ->].
  exists out. reflexivity.
Qed.

Lemma parse_sys_args_fatal_witness :
  exists out,
    parse_sys_args ["crumbler.py"; "-p"; "docs/"; "--help"]
    = Exited 1 (out ++ [UnknownError]).
Proof.
  apply (parse_sys_args_fatal ["crumbler.py"; "-p"; "docs/"; "--help"] "--help").
  - right. right. left. reflexivity.
  - reflexivity.
Defined.

(** X27. Arguments of ASCII characters that are no options and come
    before the first option are passed over without a word. *)
Theorem parse_sys_args_stray_values (prog : string) (extra rest : list string) :
  Forall (fun v => plain v = true) extra ->
  parse_sys_args (prog :: extra ++ rest) = parse_sys_args (prog :: rest).
Proof.
  intros H. unfold parse_sys_args. cbn [List.tl].
  rewrite parse_loop_app.
  rewrite (parse_loop_stray
             {| args := {[ "css" := VList []; "js" := VList [] ]};
                next_key := None; printed := [] |} extra eq_refl H).
  reflexivity.
Qed.

Lemma parse_sys_args_stray_values_witness :
  parse_sys_args ("crumbler.py" :: ["docs/"; "-xy"] ++ ["-l"])
  = parse_sys_args ("crumbler.py" :: ["-l"]).
Proof.
  apply (parse_sys_args_stray_values "crumbler.py" ["docs/"; "-xy"] ["-l"]).
  repeat constructor.
Defined.

(** ** The order of the index lookup *)

Lemma join2_empty_l x : posixpath.join2 "" x = x.
Proof. unfold posixpath.join2. destruct (Str.startswith "/" x); reflexivity. Qed.

Lemma crumb_result_value os c root off start is_local webroot :
  posixpath.isabs (getcwd os) = true ->
  Str.truthy c = true ->
  crumb_result os c root off start is_local webroot
  = Ok (crumb_value os root start is_local webroot c off).
Proof.
  intros Hcwd Hc. unfold crumb_result, crumb_value. cbv zeta.
  destruct is_local.
  - destruct (truthy_opt start); [|reflexivity].
    now apply relpath_unfold.
  - rewrite (get_url_path_components os Hcwd), join2_empty_l. reflexivity.
Qed.

(** X28. For a base name without separator, [_get_crumb] looks in the
    directory [D], which is [slash_trim(root)] joined with
    [slash_trim(path)] and taken from the working directory, at three
    candidates in this order: the file named after the base inside [D],
    [index.md] inside [D], and the file named after the base in the
    directory above [D].  It returns the value of the first one that
    exists, and [None] when none does.  The value is the relative path from
    the start location to the candidate (Local mode), the candidate without
    the length of the root (Local mode, no start location), or the URL of
    the candidate below the web root (Web mode). *)
Theorem get_crumb_first_existing (os : OS) (path root b : string) (start : option string)
    (is_local : bool) (webroot : string) :
  posixpath.isabs (getcwd os) = true ->
  slashfree b = true ->
  let cwd := getcwd os in
  let D := posixpath.join2 (slash_trim root) (slash_trim path) in
  let dir := posixpath.path_list cwd D in
  let file_base := b +:+ ".md" in
  let c1 := posixpath.join2 D file_base in
  let c2 := posixpath.join2 D "index.md" in
  let c3 := posixpath.join "."
              [rel_join (rel_list (posixpath.path_list cwd ".") (removelast dir));
               file_base] in
  let value := crumb_value os (slash_trim root) start is_local webroot in
  (posixpath.path_list cwd c1 = dir ++ [file_base]
   /\ posixpath.path_list cwd c2 = dir ++ ["index.md"]
   /\ posixpath.path_list cwd c3 = removelast dir ++ [file_base])
  /\ _get_crumb os path root (Some b) start is_local webroot
     = Ok (if path_exists os c1 then Some (value c1 0)
           else if path_exists os c2 then Some (value c2 0)
           else if path_exists os c3 then Some (value c3 1)
           else None).
Proof.
  intros Hcwd Hb. cbv zeta.
  set (D := posixpath.join2 (slash_trim root) (slash_trim path)).
  assert (Hfb : clean (b +:+ ".md") = true) by now apply clean_file_base.
  assert (Htfb : Str.truthy (b +:+ ".md") = true) by now apply clean_truthy.
  assert (Hparent :
    posixpath.relpath (getcwd os) (posixpath.join2 D posixpath.pardir) posixpath.curdir
    = Ok (rel_join (rel_list (posixpath.path_list (getcwd os) ".")
                      (removelast (posixpath.path_list (getcwd os) D))))).
  { rewrite relpath_unfold by now apply join2_truthy.
    now rewrite (path_list_pardir os Hcwd). }
  split.
  - split; [|split].
    + now apply path_list_child.
    + now apply path_list_child.
    + now apply path_list_parent_candidate.
  - unfold _get_crumb. cbv zeta. fold D.
    rewrite !(crumb_result_value os _ _ _ _ _ _ Hcwd) by now apply join2_truthy.
    destruct (path_exists os (posixpath.join2 D (b +:+ ".md"))); [reflexivity|].
    destruct (path_exists os (posixpath.join2 D "index.md")); [reflexivity|].
    rewrite Hparent. cbn [mbind result_bind].
    rewrite (crumb_result_value os _ _ _ _ _ _ Hcwd) by now apply join2_truthy.
    destruct (path_exists os _); reflexivity.
Qed.

Lemma get_crumb_first_existing_witness :
  let os := os_files "/srv/site" ["/srv/site/docs/a/index.md"; "/srv/site/docs/a.md"] in
  let cwd := getcwd os in
  let D := posixpath.join2 (slash_trim "docs/") (slash_trim "/a") in
  let dir := posixpath.path_list cwd D in
  let file_base := "a" +:+ ".md" in
  let c1 := posixpath.join2 D file_base in
  let c2 := posixpath.join2 D "index.md" in
  let c3 := posixpath.join "."
              [rel_join (rel_list (posixpath.path_list cwd ".") (removelast dir));
               file_base] in
  let value := crumb_value os (slash_trim "docs/") (Some "docs/a/b") true "" in
  (posixpath.path_list cwd c1 = dir ++ [file_base]
   /\ posixpath.path_list cwd c2 = dir ++ ["index.md"]
   /\ posixpath.path_list cwd c3 = removelast dir ++ [file_base])
  /\ _get_crumb os "/a" "docs/" (Some "a") (Some "docs/a/b") true ""
     = Ok (if path_exists os c1 then Some (value c1 0)
           else if path_exists os c2 then Some (value c2 0)
           else if path_exists os c3 then Some (value c3 1)
           else None).
Proof.
  apply (get_crumb_first_existing
           (os_files "/srv/site" ["/srv/site/docs/a/index.md"; "/srv/site/docs/a.md"])
           "/a" "docs/" "a" (Some "docs/a/b") true "");
    reflexivity.
Defined.
